(** * Voice agent front end: turn loop, exchange and session identity

    A shallow embedding of the browser scripts of the conversational voice
    agent: [src/files/script.js] (module [Script]) and the earlier variant of
    the same page script, [src/unnamed/part_000] (module [Part000]).

    The scripts are event driven.  Every handler runs to completion on the
    page's single thread, so a handler is a function on the page state and
    the page is a step function over the events the host delivers: gestures,
    device grants, recorder events, settled requests, playback end, socket
    messages.  An [await] splits a function in two: the part before it
    registers a pending operation in the state, the part after it is the
    step taken when the host settles that operation. *)

From stdpp Require Import base option list strings gmap pretty.
From Stdlib Require Import NArith Ascii Lia.
From Stdlib.Strings Require Import Byte.

Open Scope string_scope.
Open Scope list_scope.
Set Warnings "-register-all".

(** ** JavaScript values met by the scripts *)

Module Js.

(** A parsed JSON document.  A number is kept as the text that
    [Number.prototype.toString] prints for it: the scripts only ever print a
    response number or test it for being zero. *)
Inductive json : Type :=
  | JNull
  | JBool (b : bool)
  | JNum (repr : string)
  | JStr (s : string)
  | JArr (items : list json)
  | JObj (fields : list (string * json)).

(** [undefined] is [None]. *)
Definition value := option json.

Fixpoint assoc {A} (k : string) (l : list (string * A)) : option A :=
  match l with
  | [] => None
  | (k', v) :: l' => if String.eqb k k' then Some v else assoc k l'
  end.

(** [v.k] for a value [v] that is neither [null] nor [undefined]: own
    properties of an object, [undefined] on primitives and arrays (none of
    the names the scripts read is a built-in property). *)
Definition get (v : json) (k : string) : value :=
  match v with
  | JObj fields => assoc k fields
  | _ => None
  end.

Definition nonempty (s : string) : bool :=
  match s with EmptyString => false | String _ _ => true end.

(** ToBoolean. *)
Definition truthy (v : value) : bool :=
  match v with
  | None => false
  | Some JNull => false
  | Some (JBool b) => b
  | Some (JNum repr) => negb (String.eqb repr "0")
  | Some (JStr s) => nonempty s
  | Some (JArr _) => true
  | Some (JObj _) => true
  end.

(** [a || b] *)
Definition or_else (a b : value) : value := if truthy a then a else b.

(** [a && b] *)
Definition and_then (a b : value) : value := if truthy a then b else a.

(** [a || d] where [d] is a value that is never [undefined]. *)
Definition or_default (a : value) (d : json) : json :=
  match a with
  | Some v => if truthy a then v else d
  | None => d
  end.

(** [typeof v === "string"] *)
Definition is_string (v : json) : bool :=
  match v with JStr _ => true | _ => false end.

Definition join (sep : string) (parts : list string) : string :=
  match parts with
  | [] => EmptyString
  | p :: ps => fold_left (fun acc q => acc +:+ sep +:+ q) ps p
  end.

(** ToString, as applied by [new Error(v)] and by assignments to
    [textContent] and [src]. *)
Fixpoint to_string (v : json) : string :=
  match v with
  | JNull => "null"
  | JBool true => "true"
  | JBool false => "false"
  | JNum repr => repr
  | JStr s => s
  | JArr items =>
      join ","
        ((fix each (l : list json) : list string :=
            match l with
            | [] => []
            | JNull :: l' => EmptyString :: each l'
            | x :: l' => to_string x :: each l'
            end) items)
  | JObj _ => "[object Object]"
  end.

(** Whether ToString returns.  A parsed value holds no function, so on an
    object with an own [toString] property neither that property nor the
    inherited [valueOf] yields a primitive and ToString throws a TypeError;
    an array converts when all its items do.  [to_string] below is the text
    of a value that converts. *)
Fixpoint converts (v : json) : bool :=
  match v with
  | JArr items =>
      (fix each (l : list json) : bool :=
         match l with
         | [] => true
         | x :: l' => converts x && each l'
         end) items
  | JObj fields =>
      match assoc "toString" fields with
      | Some _ => false
      | None => true
      end
  | _ => true
  end.

(** The message of that TypeError, in V8's words; it is the host's. *)
Definition conversion_error_message : string :=
  "Cannot convert object to primitive value".

Definition hex_digit (n : N) : ascii :=
  match n with
  | 0 => "0" | 1 => "1" | 2 => "2" | 3 => "3" | 4 => "4" | 5 => "5"
  | 6 => "6" | 7 => "7" | 8 => "8" | 9 => "9" | 10 => "a" | 11 => "b"
  | 12 => "c" | 13 => "d" | 14 => "e" | _ => "f"
  end%char%N.

Definition backslash : ascii := ascii_of_N 92.

(** QuoteJSONString on one code unit. *)
Definition quote_char (c : ascii) : string :=
  let n := N_of_ascii c in
  if (n =? 8)%N then String backslash "b"
  else if (n =? 9)%N then String backslash "t"
  else if (n =? 10)%N then String backslash "n"
  else if (n =? 12)%N then String backslash "f"
  else if (n =? 13)%N then String backslash "r"
  else if (n =? 34)%N then String backslash (String c EmptyString)
  else if (n =? 92)%N then String backslash (String backslash EmptyString)
  else if (n <? 32)%N then
    String backslash "u00" +:+ String (hex_digit (n / 16)) (String (hex_digit (n mod 16)) EmptyString)
  else String c EmptyString.

Fixpoint quote_body (s : string) : string :=
  match s with
  | EmptyString => EmptyString
  | String c s' => quote_char c +:+ quote_body s'
  end.

Definition dquote : string := String (ascii_of_N 34) EmptyString.

Definition quote (s : string) : string := dquote +:+ quote_body s +:+ dquote.

(** [JSON.stringify(v)] without indentation. *)
Fixpoint stringify (v : json) : string :=
  match v with
  | JNull => "null"
  | JBool true => "true"
  | JBool false => "false"
  | JNum repr => repr
  | JStr s => quote s
  | JArr items =>
      "[" +:+ join ","
        ((fix each (l : list json) : list string :=
            match l with
            | [] => []
            | x :: l' => stringify x :: each l'
            end) items) +:+ "]"
  | JObj fields =>
      "{" +:+ join ","
        ((fix each (l : list (string * json)) : list string :=
            match l with
            | [] => []
            | (k, x) :: l' => (quote k +:+ ":" +:+ stringify x) :: each l'
            end) fields) +:+ "}"
  end.

End Js.

Import Js.

(** ** Host objects *)

(** A binary fragment; [size] is its length and [new Blob(parts)] is the
    concatenation of the parts. *)
Definition blob := list byte.

Definition new_Blob (parts : list blob) : blob := concat parts.

(** An entry of a [FormData]: a file with its name, or a text field. *)
Inductive form_value : Type :=
  | FFile (content : blob) (filename : string)
  | FText (text : string).

Definition form_data := list (string * form_value).

Record request := { url : string; body : form_data }.

(** How a [fetch] settles.  [Rejected] is a network failure with the host's
    message.  [Responded] carries the status line and what [res.json()]
    yields: [None] when the body is not JSON and the call rejects. *)
Inductive fetch_outcome : Type :=
  | Rejected (message : string)
  | Responded (status : N) (statusText : string) (parsed : option json).

(** [res.ok] *)
Definition ok (status : N) : bool := ((200 <=? status) && (status <=? 299))%N.

(** What a failed exchange throws. *)
Inductive thrown : Type :=
  | NetworkFailure (message : string)   (* fetch rejected *)
  | BodySyntaxError                     (* res.json() rejected *)
  | NullDereference                     (* property read on null *)
  | NotConvertible                      (* ToString threw *)
  | UserError (message : string).       (* new Error(message) *)

(** The hidden audio element. *)
Record audio := {
  src : string;
  playing : bool;
  onended : bool   (* the auto-listen handler is installed *)
}.

Definition fallback_asset : string := "/static/fallback.mp3".

(** ** Session identity ([ensureSessionId], script.js lines 2-13) *)

Module Session.

(** The tab's navigational context.  [search] is the query string as
    [URLSearchParams] reads it, a list of name/value pairs; writing the
    serialised list back with [history.replaceState] and parsing it again
    gives the same pairs.  [sessionIdText] is the text of the element with
    that id, [None] when the page has no such element. *)
Record tab := {
  search : list (string * string);
  sessionIdText : option string
}.

(** [URLSearchParams.get]: the first value under the name. *)
Definition params_get (name : string) (params : list (string * string))
  : option string := assoc name params.

(** [URLSearchParams.set]: overwrite the first pair under the name and drop
    the others, or append a new pair. *)
Fixpoint params_set (name val : string) (params : list (string * string))
  : list (string * string) :=
  match params with
  | [] => [(name, val)]
  | (k, v) :: rest =>
      if String.eqb name k
      then (k, val) :: List.filter (fun kv => negb (String.eqb name (fst kv))) rest
      else (k, v) :: params_set name val rest
  end.

(** [!id] for the result of [params.get]. *)
Definition absent (id : option string) : bool :=
  match id with
  | None => true
  | Some s => negb (nonempty s)
  end.

(** [ensureSessionId()]; [now] is what [Date.now()] reads. *)
Definition ensureSessionId (now : N) (t : tab) : string * tab :=
  let params := search t in
  let id := params_get "session_id" params in
  let '(id, params) :=
    if absent id
    then (pretty now, params_set "session_id" (pretty now) params)
    else (default EmptyString id, params) in
  (id, {| search := params;
          sessionIdText := match sessionIdText t with
                           | Some _ => Some id
                           | None => None
                           end |}).

End Session.

(** ** The page script, [src/files/script.js] *)

Module Script.

Inductive side : Type := SideLeft | SideRight.

(** The page elements the turn loop writes to: chat bubbles in order, the
    status line, the toasts shown so far, and the record button's [pulse]
    class and [aria-pressed] attribute. *)
Record view := {
  chatWindow : list (string * side);
  statusText : string;
  toasts : list string;
  pulse : bool;
  ariaPressed : bool
}.

Definition addMessage (text : string) (sd : side) (v : view) : view :=
  {| chatWindow := chatWindow v ++ [(text, sd)]; statusText := statusText v;
     toasts := toasts v; pulse := pulse v; ariaPressed := ariaPressed v |}.

Definition showToast (msg : string) (v : view) : view :=
  {| chatWindow := chatWindow v; statusText := statusText v;
     toasts := toasts v ++ [msg]; pulse := pulse v;
     ariaPressed := ariaPressed v |}.

(** The three writes to the record button and status line made together by
    [startRecording] and [stopRecording]. *)
Definition setButton (pressed : bool) (status : string) (v : view) : view :=
  {| chatWindow := chatWindow v; statusText := status; toasts := toasts v;
     pulse := pressed; ariaPressed := pressed |}.

(** What the exchange reads from the page when a request is built: the two
    toggles ([None] when the element is missing, as [?.] allows) and the
    key store. *)
Record controls := {
  conciseToggle : option bool;
  webToggle : option bool;
  localStorage : gmap string string
}.

(** A [MediaRecorder]: [Recording] after [start()], [StopQueued] once
    [stop()] has made it inactive and its [stop] event is still to be
    dispatched, [Inactive] after that. *)
Inductive recorder : Type := Recording | StopQueued | Inactive.

Record state := {
  sessionId : string;
  page : controls;
  mediaRecorder : option nat;      (* index into [recorders] *)
  recorders : list recorder;       (* every recorder created, oldest first *)
  chunks : list blob;
  isRecording : bool;
  acquiring : nat;                 (* [getUserMedia] calls not yet settled *)
  inflight : list request;         (* [fetch] calls not yet settled *)
  aiAudio : audio;
  ui : view
}.

Definition with_ui (f : view -> view) (s : state) : state :=
  {| sessionId := sessionId s; page := page s;
     mediaRecorder := mediaRecorder s; recorders := recorders s;
     chunks := chunks s; isRecording := isRecording s;
     acquiring := acquiring s; inflight := inflight s;
     aiAudio := aiAudio s; ui := f (ui s) |}.

Definition with_audio (a : audio) (s : state) : state :=
  {| sessionId := sessionId s; page := page s;
     mediaRecorder := mediaRecorder s; recorders := recorders s;
     chunks := chunks s; isRecording := isRecording s;
     acquiring := acquiring s; inflight := inflight s;
     aiAudio := a; ui := ui s |}.

Definition with_acquiring (n : nat) (s : state) : state :=
  {| sessionId := sessionId s; page := page s;
     mediaRecorder := mediaRecorder s; recorders := recorders s;
     chunks := chunks s; isRecording := isRecording s;
     acquiring := n; inflight := inflight s;
     aiAudio := aiAudio s; ui := ui s |}.

Definition with_recorders (rs : list recorder) (s : state) : state :=
  {| sessionId := sessionId s; page := page s;
     mediaRecorder := mediaRecorder s; recorders := rs;
     chunks := chunks s; isRecording := isRecording s;
     acquiring := acquiring s; inflight := inflight s;
     aiAudio := aiAudio s; ui := ui s |}.

Definition with_inflight (rq : list request) (s : state) : state :=
  {| sessionId := sessionId s; page := page s;
     mediaRecorder := mediaRecorder s; recorders := recorders s;
     chunks := chunks s; isRecording := isRecording s;
     acquiring := acquiring s; inflight := rq;
     aiAudio := aiAudio s; ui := ui s |}.

Definition with_chunks (cs : list blob) (s : state) : state :=
  {| sessionId := sessionId s; page := page s;
     mediaRecorder := mediaRecorder s; recorders := recorders s;
     chunks := cs; isRecording := isRecording s;
     acquiring := acquiring s; inflight := inflight s;
     aiAudio := aiAudio s; ui := ui s |}.

Definition with_page (c : controls) (s : state) : state :=
  {| sessionId := sessionId s; page := c;
     mediaRecorder := mediaRecorder s; recorders := recorders s;
     chunks := chunks s; isRecording := isRecording s;
     acquiring := acquiring s; inflight := inflight s;
     aiAudio := aiAudio s; ui := ui s |}.

(** *** Capture (lines 46-131) *)

(** [startRecording()] up to its [await]: the device is requested. *)
Definition startRecording (s : state) : state :=
  with_acquiring (S (acquiring s)) s.

(** [startRecording()] after the device is granted (lines 53-111): a new
    recorder replaces [mediaRecorder], [chunks] is reset, the recorder is
    started and the flag is raised. *)
Definition startRecording_granted (s : state) : state :=
  {| sessionId := sessionId s; page := page s;
     mediaRecorder := Some (length (recorders s));
     recorders := recorders s ++ [Recording];
     chunks := [];
     isRecording := true;
     acquiring := pred (acquiring s);
     inflight := inflight s;
     aiAudio := aiAudio s;
     ui := showToast "Recording started"
             (setButton true "Listening… tap to stop" (ui s)) |}.

(** [startRecording()] when the request is refused (lines 112-114). *)
Definition startRecording_denied (message : string) (s : state) : state :=
  with_ui (showToast ("Mic error: " +:+ message))
    (with_acquiring (pred (acquiring s)) s).

(** [MediaRecorder.stop()]: nothing on a recorder that is not recording. *)
Definition recorder_stop (r : nat) (rs : list recorder) : list recorder :=
  match rs !! r with
  | Some Recording => <[r := StopQueued]> rs
  | _ => rs
  end.

(** [stopRecording()] (lines 117-126). *)
Definition stopRecording (s : state) : state :=
  match mediaRecorder s with
  | Some r =>
      if isRecording s then
        {| sessionId := sessionId s; page := page s;
           mediaRecorder := mediaRecorder s;
           recorders := recorder_stop r (recorders s);
           chunks := chunks s;
           isRecording := false;
           acquiring := acquiring s;
           inflight := inflight s;
           aiAudio := aiAudio s;
           ui := showToast "Recording stopped"
                   (setButton false "Thinking…" (ui s)) |}
      else s
  | None => s
  end.

(** The record button's click handler (lines 129-131). *)
Definition click (s : state) : state :=
  if isRecording s then stopRecording s else startRecording s.

(** [mediaRecorder.ondataavailable] (lines 56-58); [data] is [None] when the
    event carries no blob. *)
Definition ondataavailable (data : option blob) (s : state) : state :=
  match data with
  | Some b => if (0 <? length b)%nat then with_chunks (chunks s ++ [b]) s else s
  | None => s
  end.

(** *** Building the request (lines 62-84) *)

(** [el?.checked ? "1" : "0"] *)
Definition flag (toggle : option bool) : string :=
  match toggle with
  | Some true => "1"
  | _ => "0"
  end.

(** [localStorage.getItem(k) || ""] *)
Definition stored_key (c : controls) (k : string) : string :=
  match localStorage c !! k with
  | Some v => if nonempty v then v else EmptyString
  | None => EmptyString
  end.

(** [if (v) fd.append(field, v)] *)
Definition append_key (field v : string) (fd : form_data) : form_data :=
  if nonempty v then fd ++ [(field, FText v)] else fd.

Definition build_form (now : N) (audio_blob : blob) (c : controls) : form_data :=
  let fd := [("file", FFile audio_blob ("rec_" +:+ pretty now +:+ ".webm"))] in
  let fd := fd ++ [("concise", FText (flag (conciseToggle c)))] in
  let fd := fd ++ [("web_search", FText (flag (webToggle c)))] in
  let fd := append_key "assemblyai_api_key" (stored_key c "key_assemblyai") fd in
  let fd := append_key "gemini_api_key" (stored_key c "key_gemini") fd in
  let fd := append_key "murf_api_key" (stored_key c "key_murf") fd in
  let fd := append_key "tavily_api_key" (stored_key c "key_tavily") fd in
  fd.

(** [mediaRecorder.onstop] up to the [await fetch] (lines 60-84). *)
Definition onstop (now : N) (s : state) : state :=
  let audio_blob := new_Blob (chunks s) in
  let s := with_ui (addMessage "(captured voice)" SideRight) s in
  let fd := build_form now audio_blob (page s) in
  with_inflight
    (inflight s ++ [{| url := "/agent/chat/" +:+ sessionId s; body := fd |}]) s.

(** *** The reply (lines 84-103) *)

(** Lines 84-87: the response is read as JSON, then a non-success status
    throws [new Error(js.error || "Server error")]. *)
Definition exchange (out : fetch_outcome) : thrown + json :=
  match out with
  | Rejected message => inl (NetworkFailure message)
  | Responded _ _ None => inl BodySyntaxError
  | Responded status _ (Some js) =>
      if negb (ok status) then
        match js with
        | JNull => inl NullDereference
        | _ =>
            let message := or_default (get js "error") (JStr "Server error") in
            if converts message
            then inl (UserError (to_string message))
            else inl NotConvertible
        end
      else inr js
  end.

Definition apology : string :=
  "I'm having trouble connecting right now. Please try again.".

(** Lines 90-98.  [started] tells whether [aiAudio.play()] resolved; a
    rejection is swallowed.  Assigning [src] ends whatever was playing. *)
Definition on_success (text audio_src : string) (started : bool) (s : state)
  : state :=
  with_audio {| src := audio_src; playing := started; onended := true |}
    (with_ui (addMessage text SideLeft) s).

(** The [catch] block, lines 99-103.  [aiAudio.onended] is left as it is. *)
Definition on_failure (started : bool) (s : state) : state :=
  with_audio {| src := fallback_asset; playing := started;
                onended := onended (aiAudio s) |}
    (with_ui (addMessage apology SideLeft) s).

(** Lines 89-103 for a response that passed line 87.  Reading a property
    of [null] throws; so does writing a text that does not convert to the
    bubble (inside [addMessage], before the bubble is attached) and writing
    an audio source that does not convert (line 93, after the bubble of
    line 90 is in the chat).  Whatever is thrown lands in the [catch]
    block. *)
Definition show_reply (js : json) (started : bool) (s : state) : state :=
  match js with
  | JNull => on_failure started s
  | _ =>
      let text := or_default (get js "llm_text") (JStr "(no response)") in
      let audio_src := or_default (get js "audio_url") (JStr fallback_asset) in
      if converts text then
        if converts audio_src
        then on_success (to_string text) (to_string audio_src) started s
        else on_failure started
               (with_ui (addMessage (to_string text) SideLeft) s)
      else on_failure started s
  end.

(** [mediaRecorder.onstop] after the [await fetch]. *)
Definition onstop_settled (out : fetch_outcome) (started : bool) (s : state)
  : state :=
  match exchange out with
  | inl _ => on_failure started s
  | inr js => show_reply js started s
  end.

(** The [ended] event of the audio element: playback is over, and the
    handler assigned on line 95, if any, starts a capture. *)
Definition audio_ended (s : state) : state :=
  let s' := with_audio {| src := src (aiAudio s); playing := false;
                          onended := onended (aiAudio s) |} s in
  if onended (aiAudio s) then startRecording s' else s'.

(** *** The page as a machine *)

Inductive event : Type :=
  | Click
  | MediaGranted
  | MediaDenied (message : string)
  | DataAvailable (r : nat) (data : option blob)
  | RecorderStopped (r : nat) (now : N)
  | FetchSettled (i : nat) (out : fetch_outcome) (started : bool)
  | AudioEnded
  | PageChanged (c : controls)
  | TrackEnded (r : nat).

(** One event.  [None] when the host cannot deliver the event in this state:
    no device request is pending, the recorder has no such event queued, no
    such request is in flight, nothing is playing.  [TrackEnded] is the host
    inactivating a recorder on its own (the device is unplugged, the
    permission revoked): no handler runs, the recorder's last fragment and
    its [stop] event follow as after [stop()].  A conforming host delivers a
    recorder's single fragment and its [stop] event back to back, after the
    recorder was stopped; the machine allows these and more orders. *)
Definition step (e : event) (s : state) : option state :=
  match e with
  | Click => Some (click s)
  | MediaGranted =>
      match acquiring s with
      | O => None
      | S _ => Some (startRecording_granted s)
      end
  | MediaDenied message =>
      match acquiring s with
      | O => None
      | S _ => Some (startRecording_denied message s)
      end
  | DataAvailable r data =>
      match recorders s !! r with
      | Some Recording | Some StopQueued => Some (ondataavailable data s)
      | _ => None
      end
  | RecorderStopped r now =>
      match recorders s !! r with
      | Some StopQueued =>
          Some (onstop now (with_recorders (<[r := Inactive]> (recorders s)) s))
      | _ => None
      end
  | FetchSettled i out started =>
      match inflight s !! i with
      | Some _ =>
          Some (onstop_settled out started
                  (with_inflight (delete i (inflight s)) s))
      | None => None
      end
  | AudioEnded =>
      if playing (aiAudio s) then Some (audio_ended s) else None
  | PageChanged c => Some (with_page c s)
  | TrackEnded r =>
      match recorders s !! r with
      | Some Recording =>
          Some (with_recorders (<[r := StopQueued]> (recorders s)) s)
      | _ => None
      end
  end.

Fixpoint run (es : list event) (s : state) : option state :=
  match es with
  | [] => Some s
  | e :: es' =>
      match step e s with
      | Some s' => run es' s'
      | None => None
      end
  end.

(** The page after load: nothing recorded, requested or played yet. *)
Definition init (id : string) (c : controls) : state :=
  {| sessionId := id; page := c;
     mediaRecorder := None; recorders := []; chunks := [];
     isRecording := false; acquiring := 0; inflight := [];
     aiAudio := {| src := EmptyString; playing := false; onended := false |};
     ui := {| chatWindow := []; statusText := EmptyString; toasts := [];
              pulse := false; ariaPressed := false |} |}.

Definition is_recording (r : recorder) : bool :=
  match r with Recording => true | _ => false end.


(** Recorders in the [recording] state.  The device stream behind a
    recorder is another matter: the script keeps no handle on it after
    creating the recorder and never stops its tracks. *)
Definition live (s : state) : nat :=
  length (List.filter is_recording (recorders s)).


End Script.

(** ** The turn-detection socket, script.js lines 144-200 *)

Module TurnSocket.

Inductive readyState : Type := Connecting | Open | Closed.

(** The whole of script.js's page: the turn loop, the socket held in
    [turnSocket] with the number of sockets constructed so far, and the turn
    panel ([turnBox]'s [hidden] class and the rows of [turnLog]). *)
Record page := {
  loop : Script.state;
  turnSocket : option readyState;
  constructed : nat;
  turnBox_hidden : bool;
  turnLog : list string
}.

(** [initTurnSocket()] (lines 148-193), the [DOMContentLoaded] listener.  It
    is registered twice with the same function, which the host keeps once. *)
Definition initTurnSocket (p : page) : page :=
  {| loop := loop p; turnSocket := Some Connecting;
     constructed := S (constructed p);
     turnBox_hidden := turnBox_hidden p; turnLog := turnLog p |}.

(** The test on line 167:
    [payload && payload.type === "turn" && payload.end_of_turn]. *)
Definition is_boundary (payload : json) : bool :=
  truthy (Some payload)
  && match get payload "type" with
     | Some (JStr t) => String.eqb t "turn"
     | _ => false
     end
  && truthy (get payload "end_of_turn").

(** [turnSocket.onmessage] (lines 157-179); [parsed] is what
    [JSON.parse(evt.data)] gives, [None] when it throws.  The panel is
    revealed before the row is filled in; a transcript that does not
    convert throws at line 175 and the row is never attached. *)
Definition onmessage (parsed : option json) (p : page) : page :=
  match parsed with
  | None => p
  | Some payload =>
      if is_boundary payload then
        let transcript :=
          or_default (get payload "transcript") (JStr "(no transcript)") in
        {| loop := loop p; turnSocket := turnSocket p;
           constructed := constructed p;
           turnBox_hidden := false;
           turnLog := if converts transcript
                      then turnLog p ++ [to_string transcript]
                      else turnLog p |}
      else p
  end.

(** [onopen], [onerror] and [onclose] only write to the console. *)
Definition onopen (p : page) : page := p.
Definition onerror (p : page) : page := p.
Definition onclose (p : page) : page := p.

Definition set_ready (r : readyState) (p : page) : page :=
  {| loop := loop p; turnSocket := Some r; constructed := constructed p;
     turnBox_hidden := turnBox_hidden p; turnLog := turnLog p |}.

(** What the socket delivers. *)
Inductive event : Type :=
  | WsOpen
  | WsMessage (parsed : option json)
  | WsError
  | WsClose.

(** The host moves the socket's ready state, then runs the handler. *)
Definition step (e : event) (p : page) : page :=
  match e with
  | WsOpen => onopen (set_ready Open p)
  | WsMessage parsed => onmessage parsed p
  | WsError => onerror p
  | WsClose => onclose (set_ready Closed p)
  end.

Definition run (es : list event) (p : page) : page :=
  fold_left (fun q e => step e q) es p.

End TurnSocket.

(** ** The earlier page script, [src/unnamed/part_000] *)

Module Part000.

Inductive role : Type := User | Assistant.

Record view := {
  chatWindow : list (role * string);
  statusText : string;
  toasts : list string;
  pressed : bool      (* the button's highlight classes and [aria-pressed] *)
}.

Definition setStatus (msg : string) (v : view) : view :=
  {| chatWindow := chatWindow v; statusText := msg; toasts := toasts v;
     pressed := pressed v |}.

Definition showToast (msg : string) (v : view) : view :=
  {| chatWindow := chatWindow v; statusText := statusText v;
     toasts := toasts v ++ [msg]; pressed := pressed v |}.

Definition appendMsg (r : role) (text : string) (v : view) : view :=
  {| chatWindow := chatWindow v ++ [(r, text)]; statusText := statusText v;
     toasts := toasts v; pressed := pressed v |}.

Definition setPressed (b : bool) (v : view) : view :=
  {| chatWindow := chatWindow v; statusText := statusText v;
     toasts := toasts v; pressed := b |}.

(** A [MediaRecorder]: whether its state is [recording], and which of its
    [start] and [stop] events are queued and not yet dispatched. *)
Record recorder := {
  active : bool;
  start_queued : bool;
  stop_queued : bool
}.

Record state := {
  sessionId : string;
  mediaRecorder : option nat;
  recorders : list recorder;
  audioChunks : list blob;
  recordedBlob : option blob;
  isRecording : bool;
  acquiring : nat;
  inflight : list request;
  aiAudio : audio;
  ui : view
}.

Definition with_ui (f : view -> view) (s : state) : state :=
  {| sessionId := sessionId s; mediaRecorder := mediaRecorder s;
     recorders := recorders s; audioChunks := audioChunks s;
     recordedBlob := recordedBlob s; isRecording := isRecording s;
     acquiring := acquiring s; inflight := inflight s;
     aiAudio := aiAudio s; ui := f (ui s) |}.

Definition with_audio (a : audio) (s : state) : state :=
  {| sessionId := sessionId s; mediaRecorder := mediaRecorder s;
     recorders := recorders s; audioChunks := audioChunks s;
     recordedBlob := recordedBlob s; isRecording := isRecording s;
     acquiring := acquiring s; inflight := inflight s;
     aiAudio := a; ui := ui s |}.

Definition with_acquiring (n : nat) (s : state) : state :=
  {| sessionId := sessionId s; mediaRecorder := mediaRecorder s;
     recorders := recorders s; audioChunks := audioChunks s;
     recordedBlob := recordedBlob s; isRecording := isRecording s;
     acquiring := n; inflight := inflight s;
     aiAudio := aiAudio s; ui := ui s |}.

Definition with_recorders (rs : list recorder) (s : state) : state :=
  {| sessionId := sessionId s; mediaRecorder := mediaRecorder s;
     recorders := rs; audioChunks := audioChunks s;
     recordedBlob := recordedBlob s; isRecording := isRecording s;
     acquiring := acquiring s; inflight := inflight s;
     aiAudio := aiAudio s; ui := ui s |}.

Definition with_inflight (rq : list request) (s : state) : state :=
  {| sessionId := sessionId s; mediaRecorder := mediaRecorder s;
     recorders := recorders s; audioChunks := audioChunks s;
     recordedBlob := recordedBlob s; isRecording := isRecording s;
     acquiring := acquiring s; inflight := rq;
     aiAudio := aiAudio s; ui := ui s |}.

Definition with_isRecording (b : bool) (s : state) : state :=
  {| sessionId := sessionId s; mediaRecorder := mediaRecorder s;
     recorders := recorders s; audioChunks := audioChunks s;
     recordedBlob := recordedBlob s; isRecording := b;
     acquiring := acquiring s; inflight := inflight s;
     aiAudio := aiAudio s; ui := ui s |}.

Definition with_audioChunks (cs : list blob) (s : state) : state :=
  {| sessionId := sessionId s; mediaRecorder := mediaRecorder s;
     recorders := recorders s; audioChunks := cs;
     recordedBlob := recordedBlob s; isRecording := isRecording s;
     acquiring := acquiring s; inflight := inflight s;
     aiAudio := aiAudio s; ui := ui s |}.

Definition with_recordedBlob (b : blob) (s : state) : state :=
  {| sessionId := sessionId s; mediaRecorder := mediaRecorder s;
     recorders := recorders s; audioChunks := audioChunks s;
     recordedBlob := Some b; isRecording := isRecording s;
     acquiring := acquiring s; inflight := inflight s;
     aiAudio := aiAudio s; ui := ui s |}.

(** *** Capture (lines 40-86) *)

(** [startRecording()] up to its [await]. *)
Definition startRecording (s : state) : state :=
  with_acquiring (S (acquiring s)) s.

(** [startRecording()] once the device is granted (lines 45-72): the new
    recorder is started; [isRecording] waits for its [start] event. *)
Definition startRecording_granted (s : state) : state :=
  {| sessionId := sessionId s;
     mediaRecorder := Some (length (recorders s));
     recorders := recorders s ++
       [{| active := true; start_queued := true; stop_queued := false |}];
     audioChunks := [];
     recordedBlob := recordedBlob s;
     isRecording := isRecording s;
     acquiring := pred (acquiring s);
     inflight := inflight s;
     aiAudio := aiAudio s;
     ui := ui s |}.

(** [startRecording()] when the request is refused (lines 73-77). *)
Definition startRecording_denied (s : state) : state :=
  with_ui (fun v => setStatus "Mic blocked — allow and retry"
                      (showToast "🎙️ Microphone permission required" v))
    (with_acquiring (pred (acquiring s)) s).

(** [mediaRecorder.onstart] (lines 49-54). *)
Definition onstart (s : state) : state :=
  with_ui (fun v => setStatus "Listening… tap to stop" (setPressed true v))
    (with_isRecording true s).

(** [stopRecording()] (lines 80-82). *)
Definition stopRecording (s : state) : state :=
  match mediaRecorder s with
  | Some r =>
      match recorders s !! r with
      | Some rec =>
          if active rec then
            with_recorders
              (<[r := {| active := false; start_queued := start_queued rec;
                         stop_queued := true |}]> (recorders s)) s
          else s
      | None => s
      end
  | None => s
  end.

(** The record button's click handler (lines 84-86). *)
Definition click (s : state) : state :=
  if isRecording s then stopRecording s else startRecording s.

(** [mediaRecorder.ondataavailable] (line 48). *)
Definition ondataavailable (data : blob) (s : state) : state :=
  if (0 <? length data)%nat
  then with_audioChunks (audioChunks s ++ [data]) s
  else s.

(** *** Networking helper (lines 89-98) *)

(** [`${res.status} ${res.statusText}`] *)
Definition status_line (status : N) (statusText : string) : string :=
  pretty status +:+ " " +:+ statusText.

(** [fetchJson]: the message of the error it throws, or the data it returns.
    A rejected [fetch] propagates with the host's message; a body that is
    not JSON leaves [data] at [null]. *)
Definition fetchJson (out : fetch_outcome) : string + json :=
  match out with
  | Rejected message => inl message
  | Responded status statusText parsed =>
      let data := default JNull parsed in
      if negb (ok status) then
        let msg :=
          or_default
            (and_then (Some data)
               (or_else (or_else (get data "error") (get data "stage"))
                        (get data "detail")))
            (JStr (status_line status statusText)) in
        inl (if is_string msg then to_string msg else stringify msg)
      else inr (or_default (Some data) (JObj []))
  end.

(** *** Agent call (lines 101-123) *)

(** [sendToAgent(blob)] up to the [await fetchJson]. *)
Definition sendToAgent (now : N) (b : blob) (s : state) : state :=
  let fd := [("file", FFile b ("turn_" +:+ pretty now +:+ ".webm"))] in
  let s := with_ui (setStatus "Thinking…") s in
  with_inflight
    (inflight s ++ [{| url := "/agent/chat/" +:+ sessionId s; body := fd |}]) s.

(** [mediaRecorder.onstop] (lines 55-70) up to the request. *)
Definition onstop (now : N) (s : state) : state :=
  let s := with_isRecording false s in
  let s := with_ui (fun v => setStatus "Processing…" (setPressed false v)) s in
  let b := new_Blob (audioChunks s) in
  let s := with_recordedBlob b s in
  let s := with_ui (appendMsg User "🎙️ (captured voice)") s in
  sendToAgent now b s.

(** The [catch] on [sendToAgent]'s promise (lines 65-69). *)
Definition on_failure (message : string) (s : state) : state :=
  with_ui (fun v => showToast ("⚠️ " +:+ message)
                      (setStatus "Error — tap to try again" v)) s.

(** [sendToAgent] after a successful [fetchJson] (lines 108-122).  A
    transcript, reply text or audio source that does not convert throws at
    the write (inside [appendMsg] before the bubble is attached, or at line
    113); [sendToAgent] then rejects with what was done so far left in
    place, and the [catch] of lines 65-69 reports the TypeError. *)
Definition on_success (data : json) (started : bool) (s : state) : state :=
  let transcript := or_default (get data "transcript") JNull in
  if truthy (get data "transcript") && negb (converts transcript)
  then on_failure conversion_error_message s
  else
    let s :=
      if truthy (get data "transcript")
      then with_ui (appendMsg User (to_string transcript)) s
      else s in
    let text := or_default (get data "llm_text") (JStr "(no response)") in
    if negb (converts text) then on_failure conversion_error_message s
    else
      let s := with_ui (appendMsg Assistant (to_string text)) s in
      let audio_src :=
        or_default (get data "audio_url") (JStr fallback_asset) in
      if negb (converts audio_src) then on_failure conversion_error_message s
      else
        let s := with_audio {| src := to_string audio_src;
                               playing := started; onended := true |} s in
        with_ui (setStatus (if truthy (get data "fallback")
                            then "Speaking (fallback)..."
                            else "Speaking…")) s.

Definition sendToAgent_settled (out : fetch_outcome) (started : bool)
  (s : state) : state :=
  match fetchJson out with
  | inl message => on_failure message s
  | inr data => on_success data started s
  end.

(** The [ended] event of the audio element, with the handler of lines
    118-122 when it is installed. *)
Definition audio_ended (s : state) : state :=
  let s' := with_audio {| src := src (aiAudio s); playing := false;
                          onended := onended (aiAudio s) |} s in
  if onended (aiAudio s)
  then startRecording (with_ui (setStatus "Tap to start recording") s')
  else s'.

(** *** The page as a machine *)

Inductive event : Type :=
  | Click
  | MediaGranted
  | MediaDenied
  | RecorderStarted (r : nat)
  | DataAvailable (r : nat) (data : blob)
  | RecorderStopped (r : nat) (now : N)
  | FetchSettled (i : nat) (out : fetch_outcome) (started : bool)
  | AudioEnded
  | TrackEnded (r : nat).

(** One event; [None] when the host cannot deliver it in this state.  A
    recorder's [start] event is dispatched before its [stop] event.
    [TrackEnded] is the host inactivating a recorder on its own; its last
    fragment and its [stop] event follow as after [stop()]. *)
Definition step (e : event) (s : state) : option state :=
  match e with
  | Click => Some (click s)
  | MediaGranted =>
      match acquiring s with
      | O => None
      | S _ => Some (startRecording_granted s)
      end
  | MediaDenied =>
      match acquiring s with
      | O => None
      | S _ => Some (startRecording_denied s)
      end
  | RecorderStarted r =>
      match recorders s !! r with
      | Some rec =>
          if start_queued rec then
            Some (onstart
                    (with_recorders
                       (<[r := {| active := active rec; start_queued := false;
                                  stop_queued := stop_queued rec |}]>
                          (recorders s)) s))
          else None
      | None => None
      end
  | DataAvailable r data =>
      match recorders s !! r with
      | Some rec =>
          if active rec || stop_queued rec
          then Some (ondataavailable data s) else None
      | None => None
      end
  | RecorderStopped r now =>
      match recorders s !! r with
      | Some rec =>
          if stop_queued rec && negb (start_queued rec) then
            Some (onstop now
                    (with_recorders
                       (<[r := {| active := false; start_queued := false;
                                  stop_queued := false |}]>
                          (recorders s)) s))
          else None
      | None => None
      end
  | FetchSettled i out started =>
      match inflight s !! i with
      | Some _ =>
          Some (sendToAgent_settled out started
                  (with_inflight (delete i (inflight s)) s))
      | None => None
      end
  | AudioEnded =>
      if playing (aiAudio s) then Some (audio_ended s) else None
  | TrackEnded r =>
      match recorders s !! r with
      | Some rec =>
          if active rec then
            Some (with_recorders
                    (<[r := {| active := false;
                               start_queued := start_queued rec;
                               stop_queued := true |}]> (recorders s)) s)
          else None
      | None => None
      end
  end.

Fixpoint run (es : list event) (s : state) : option state :=
  match es with
  | [] => Some s
  | e :: es' =>
      match step e s with
      | Some s' => run es' s'
      | None => None
      end
  end.

Definition init (id : string) : state :=
  {| sessionId := id; mediaRecorder := None; recorders := [];
     audioChunks := []; recordedBlob := None; isRecording := false;
     acquiring := 0; inflight := [];
     aiAudio := {| src := EmptyString; playing := false; onended := false |};
     ui := {| chatWindow := []; statusText := EmptyString; toasts := [];
              pressed := false |} |}.

End Part000.

(** ** Text built-ins used by the rest of script.js *)

Module Text.

Definition code (c : ascii) : N := N_of_ascii c.

(** WhiteSpace and LineTerminator code points, by their UTF-8 bytes: one
    byte (tab, LF, VT, FF, CR, space), two bytes (U+00A0), three bytes
    (U+1680, U+2000 to U+200A, U+2028, U+2029, U+202F, U+205F, U+3000,
    U+FEFF). *)
Definition ws1 (a : ascii) : bool :=
  let x := code a in
  ((x =? 9) || (x =? 10) || (x =? 11) || (x =? 12) || (x =? 13) || (x =? 32))%N.

Definition ws2 (a b : ascii) : bool :=
  ((code a =? 194) && (code b =? 160))%N.

Definition ws3 (a b c : ascii) : bool :=
  let x := code a in
  let y := code b in
  let z := code c in
  (((x =? 225) && (y =? 154) && (z =? 128))
   || ((x =? 226) && (y =? 128)
       && (((128 <=? z) && (z <=? 138)) || (z =? 168) || (z =? 169) || (z =? 175)))
   || ((x =? 226) && (y =? 129) && (z =? 159))
   || ((x =? 227) && (y =? 128) && (z =? 128))
   || ((x =? 239) && (y =? 187) && (z =? 191)))%N.

(** Drop the white space a text starts with.  With [backwards] the text is
    read from its end, so the bytes of a code point come last byte first. *)
Fixpoint strip (backwards : bool) (s : string) : string :=
  match s with
  | EmptyString => EmptyString
  | String a s1 =>
      if ws1 a then strip backwards s1
      else
        match s1 with
        | EmptyString => s
        | String b s2 =>
            if (if backwards then ws2 b a else ws2 a b)
            then strip backwards s2
            else
              match s2 with
              | EmptyString => s
              | String c s3 =>
                  if (if backwards then ws3 c b a else ws3 a b c)
                  then strip backwards s3
                  else s
              end
        end
  end.

(** [String.prototype.trim] *)
Definition trim (s : string) : string :=
  String.rev (strip true (String.rev (strip false s))).

(** [s.includes(needle)] *)
Definition includes (needle s : string) : bool :=
  match String.index 0 needle s with
  | Some _ => true
  | None => false
  end.

(** [String.prototype.toLowerCase] as far as ASCII letters in the result
    go: A to Z are lowered, U+0130 becomes "i" followed by U+0307 and U+212A
    becomes "k".  Every other character is left in place: its lower-case
    form has no ASCII letter in it. *)
Fixpoint toLowerCase (s : string) : string :=
  match s with
  | EmptyString => EmptyString
  | String a s1 =>
      let x := code a in
      if ((65 <=? x) && (x <=? 90))%N
      then String (ascii_of_N (x + 32)) (toLowerCase s1)
      else
        match s1 with
        | String b s2 =>
            if ((x =? 196) && (code b =? 176))%N
            then String "i" (String (ascii_of_N 204)
                               (String (ascii_of_N 135) (toLowerCase s2)))
            else
              match s2 with
              | String c s3 =>
                  if ((x =? 226) && (code b =? 132) && (code c =? 170))%N
                  then String "k" (toLowerCase s3)
                  else String a (toLowerCase s1)
              | EmptyString => String a (toLowerCase s1)
              end
        | EmptyString => String a EmptyString
        end
  end.

(** The characters [encodeURIComponent] leaves alone. *)
Definition unreserved (a : ascii) : bool :=
  let x := code a in
  (((65 <=? x) && (x <=? 90)) || ((97 <=? x) && (x <=? 122))
   || ((48 <=? x) && (x <=? 57))
   || (x =? 45) || (x =? 95) || (x =? 46) || (x =? 33) || (x =? 126)
   || (x =? 42) || (x =? 39) || (x =? 40) || (x =? 41))%N.

Definition HEX_digit (n : N) : ascii :=
  match n with
  | 0 => "0" | 1 => "1" | 2 => "2" | 3 => "3" | 4 => "4" | 5 => "5"
  | 6 => "6" | 7 => "7" | 8 => "8" | 9 => "9" | 10 => "A" | 11 => "B"
  | 12 => "C" | 13 => "D" | 14 => "E" | _ => "F"
  end%char%N.

(** [encodeURIComponent] on the UTF-8 bytes of a text. *)
Fixpoint encodeURIComponent (s : string) : string :=
  match s with
  | EmptyString => EmptyString
  | String a s' =>
      if unreserved a then String a (encodeURIComponent s')
      else String "%" (String (HEX_digit (code a / 16))
                         (String (HEX_digit (code a mod 16))
                            (encodeURIComponent s')))
  end.

End Text.

(** ** Page load, script.js lines 139-151 and part_000 lines 2-8 *)

Module PageLoad.


(** The address [initTurnSocket] connects to (line 150). *)
Definition turnSocket_url (host sessionId : string) : string :=
  "ws://" +:+ host +:+ "/ws/transcribe?session_id="
  +:+ Text.encodeURIComponent sessionId.

(** The first statements of part_000 (lines 2-8).  The key is made as in
    script.js; the write to the element is unguarded, so without the
    element the script stops there with a TypeError: [None]. *)
Definition part000_load (now : N) (t : Session.tab)
  : Session.tab * option string :=
  let p := Session.search t in
  let id := Session.params_get "session_id" p in
  let '(id, p) :=
    if Session.absent id
    then (pretty now, Session.params_set "session_id" (pretty now) p)
    else (default EmptyString id, p) in
  match Session.sessionIdText t with
  | Some _ => ({| Session.search := p; Session.sessionIdText := Some id |},
               Some id)
  | None => ({| Session.search := p; Session.sessionIdText := None |}, None)
  end.

End PageLoad.

(** ** The key dialog, script.js lines 272-307 *)

Module Config.

(** The dialog: its [hidden] and [flex] classes and the four inputs. *)
Record form := {
  hidden : bool;
  flex : bool;
  assemblyaiKey : string;
  geminiKey : string;
  murfKey : string;
  tavilyKey : string
}.

(** [fill] (lines 286-291): the inputs take the stored keys. *)
Definition fill (c : Script.controls) (f : form) : form :=
  {| hidden := hidden f; flex := flex f;
     assemblyaiKey := Script.stored_key c "key_assemblyai";
     geminiKey := Script.stored_key c "key_gemini";
     murfKey := Script.stored_key c "key_murf";
     tavilyKey := Script.stored_key c "key_tavily" |}.

Definition set_classes (h fl : bool) (f : form) : form :=
  {| hidden := h; flex := fl;
     assemblyaiKey := assemblyaiKey f; geminiKey := geminiKey f;
     murfKey := murfKey f; tavilyKey := tavilyKey f |}.

(** [show] and [hide] (lines 293-294). *)
Definition show (c : Script.controls) (f : form) : form :=
  set_classes false true (fill c f).

Definition hide (f : form) : form := set_classes true false f.

(** [localStorage.setItem] *)
Definition setItem (k v : string) (c : Script.controls) : Script.controls :=
  {| Script.conciseToggle := Script.conciseToggle c;
     Script.webToggle := Script.webToggle c;
     Script.localStorage := <[k := v]> (Script.localStorage c) |}.

(** The save button's handler (lines 299-306). *)
Definition save (f : form) (s : Script.state) : form * Script.state :=
  let c := Script.page s in
  let c := setItem "key_assemblyai" (Text.trim (assemblyaiKey f)) c in
  let c := setItem "key_gemini" (Text.trim (geminiKey f)) c in
  let c := setItem "key_murf" (Text.trim (murfKey f)) c in
  let c := setItem "key_tavily" (Text.trim (tavilyKey f)) c in
  (hide f,
   Script.with_ui (Script.showToast "Saved API keys") (Script.with_page c s)).

Inductive input : Type := Assemblyai | Gemini | Murf | Tavily.

(** The user edits one input. *)
Definition type_in (i : input) (v : string) (f : form) : form :=
  {| hidden := hidden f; flex := flex f;
     assemblyaiKey := match i with Assemblyai => v | _ => assemblyaiKey f end;
     geminiKey := match i with Gemini => v | _ => geminiKey f end;
     murfKey := match i with Murf => v | _ => murfKey f end;
     tavilyKey := match i with Tavily => v | _ => tavilyKey f end |}.

Inductive event : Type :=
  | OpenConfig
  | CloseConfig
  | CancelConfig
  | SaveConfig
  | Typed (i : input) (v : string).

Definition step (e : event) (fs : form * Script.state) : form * Script.state :=
  let '(f, s) := fs in
  match e with
  | OpenConfig => (show (Script.page s) f, s)
  | CloseConfig => (hide f, s)
  | CancelConfig => (hide f, s)
  | SaveConfig => save f s
  | Typed i v => (type_in i v f, s)
  end.

Definition run (es : list event) (fs : form * Script.state)
  : form * Script.state :=
  fold_left (fun q e => step e q) es fs.

End Config.

(** ** The avatar, script.js lines 209-270 *)

Module Avatar.

Inductive mode : Type := Idle | Listening | Talking.

(** The table [SRC]. *)
Definition SRC (m : mode) : string :=
  match m with
  | Idle => "/static/doraemon_idle.gif"
  | Listening => "/static/doraemon_listening.gif"
  | Talking => "/static/doraemon_talking.gif"
  end.

(** [bust] (line 224); [now] is what [Date.now()] reads. *)
Definition bust (now : N) (u : string) : string :=
  u +:+ (if Text.includes "?" u then "&" else "?") +:+ "t=" +:+ pretty now.

(** [swap] (lines 225-229): the image source after it. *)
Definition swap (now : N) (m : mode) : string := bust now (SRC m).

(** [toModeFromText] (lines 251-255). *)
Definition toModeFromText (txt : string) : mode :=
  let t := Text.toLowerCase txt in
  if Text.includes "listening" t || Text.includes "recording" t
     || Text.includes "speak" t
  then Listening else Idle.

(** What the controller listens to: the pointer on the record button, an
    attribute of the button changing (with the button's [aria-pressed] at
    that time), the status line changing (with its text), and the audio
    element's [play], [ended], [pause] (with the element's [ended]) and
    [error]. *)
Inductive event : Type :=
  | PointerDown
  | PointerUp
  | MouseLeave
  | AttributeChanged (name : string) (ariaPressed : option string)
  | StatusChanged (text : string)
  | AudioPlay
  | AudioEnded
  | AudioPause (ended : bool)
  | AudioError.

(** The mode an event asks for, if any. *)
Definition signal (e : event) : option mode :=
  match e with
  | PointerDown => Some Listening
  | PointerUp => Some Idle
  | MouseLeave => Some Idle
  | AttributeChanged name aria =>
      if String.eqb name "aria-pressed" then
        match aria with
        | Some v => if String.eqb v "true" then Some Listening else Some Idle
        | None => Some Idle
        end
      else None
  | StatusChanged text => Some (toModeFromText text)
  | AudioPlay => Some Talking
  | AudioEnded => Some Idle
  | AudioPause ended => if ended then None else Some Idle
  | AudioError => Some Idle
  end.

(** The image's [src]; [None] when the page has no image, in which case the
    controller returns at once and listens to nothing. *)
Definition install (now : N) (img : option string) : option string :=
  match img with
  | Some _ => Some (swap now Idle)
  | None => None
  end.

Definition step (e : event) (now : N) (img : option string) : option string :=
  match img with
  | Some current =>
      match signal e with
      | Some m => Some (swap now m)
      | None => Some current
      end
  | None => None
  end.

Definition run (es : list (event * N)) (img : option string) : option string :=
  fold_left (fun i en => step (fst en) (snd en) i) es img.

End Avatar.

(** * Properties *)

(** ** Vocabulary of the statements *)








(** C8's condition in the specification's words: the data parses as JSON
    with type "turn" and [end_of_turn] true. *)
Definition specified_boundary (parsed : option json) : bool :=
  match parsed with
  | Some payload =>
      match get payload "type", get payload "end_of_turn" with
      | Some (JStr t), Some (JBool true) => String.eqb t "turn"
      | _, _ => false
      end
  | None => false
  end.

(** The request fields that carry a per-service key, each with the name
    it is stored under. *)
Definition credential_fields : list (string * string) :=
  [("assemblyai_api_key", "key_assemblyai");
   ("gemini_api_key", "key_gemini");
   ("murf_api_key", "key_murf");
   ("tavily_api_key", "key_tavily")].

(** A key is configured when the store holds a non-empty text for it. *)
Definition configured (c : Script.controls) (key v : string) : Prop :=
  Script.localStorage c !! key = Some v /\ nonempty v = true.

(** The first of the values that is truthy. *)
Fixpoint first_truthy (vs : list value) : option json :=
  match vs with
  | [] => None
  | v :: vs' =>
      match v with
      | Some j => if truthy v then Some j else first_truthy vs'
      | None => first_truthy vs'
      end
  end.

(** A value as an error message: a string as it is, anything else as JSON
    text. *)
Definition as_message (v : json) : string :=
  match v with
  | JStr s => s
  | _ => stringify v
  end.

(** The failure that section 4.4 of the specification describes for a
    non-success response, following its words: the stage is the body's
    [stage] field, the message its [error] or else [detail] field, or else a
    message made from the status. *)
Definition specified_failure (status : N) (statusText : string) (body : json)
  : value * string :=
  (get body "stage",
   match first_truthy [get body "error"; get body "detail"] with
   | Some v => to_string v
   | None => Part000.status_line status statusText
   end).

(** A turn fails in script.js when the request is rejected, the body is not
    JSON or is [null], or the status is not a success. *)
Definition failed (out : fetch_outcome) : bool :=
  match out with
  | Rejected _ => true
  | Responded _ _ None => true
  | Responded _ _ (Some JNull) => true
  | Responded status _ (Some _) => negb (ok status)
  end.








(** Every character of a text passes a test. *)
Fixpoint all_chars (p : ascii -> bool) (s : string) : bool :=
  match s with
  | EmptyString => true
  | String a s' => p a && all_chars p s'
  end.

(** The value of a hexadecimal digit. *)
Definition hex_value (a : ascii) : N :=
  let x := N_of_ascii a in
  if ((48 <=? x) && (x <=? 57))%N then x - 48 else x - 55.

(** What the record button and the status line show, next to the flag. *)
Definition face (s : Script.state) : bool * bool * bool * string :=
  (Script.isRecording s, Script.ariaPressed (Script.ui s),
   Script.pulse (Script.ui s), Script.statusText (Script.ui s)).

(** The mode a flag stands for. *)
Definition mode_of_flag (b : bool) : Avatar.mode :=
  if b then Avatar.Listening else Avatar.Idle.

(** The text of the [aria-pressed] attribute. *)
Definition aria_text (b : bool) : string := if b then "true" else "false".

Definition is_grant (e : Script.event) : bool :=
  match e with Script.MediaGranted => true | _ => false end.

Definition is_inactive (r : Script.recorder) : bool :=
  match r with Script.Inactive => true | _ => false end.

(** A success response whose reply text converts to a string and whose
    audio source does not: script.js shows the reply, then fails at line 93
    and apologises. *)
Definition reply_then_apology (out : fetch_outcome) : bool :=
  match out with
  | Responded status _ (Some js) =>
      ok status
      && match js with JNull => false | _ => true end
      && converts (or_default (get js "llm_text") (JStr "(no response)"))
      && negb (converts (or_default (get js "audio_url") (JStr fallback_asset)))
  | _ => false
  end.

(** Chat bubbles on one side. *)
Definition bubbles (sd : Script.side) (s : Script.state) : nat :=
  length (List.filter
            (fun m => match snd m, sd with
                      | Script.SideLeft, Script.SideLeft => true
                      | Script.SideRight, Script.SideRight => true
                      | _, _ => false
                      end)
            (Script.chatWindow (Script.ui s))).

(** A flag field of a request: the text "0" or "1". *)
Definition flag_field (v : option form_value) : Prop :=
  v = Some (FText "0") \/ v = Some (FText "1").

(** A request as script.js sends it for the session [id]. *)
Definition well_formed_request (id : string) (r : request) : Prop :=
  url r = "/agent/chat/" +:+ id
  /\ (exists b name, assoc "file" (body r) = Some (FFile b name))
  /\ flag_field (assoc "concise" (body r))
  /\ flag_field (assoc "web_search" (body r)).

(** part_000's [fetchJson] throws when the request is rejected or the
    status is not a success. *)
Definition throws (out : fetch_outcome) : bool :=
  match out with
  | Rejected _ => true
  | Responded status _ _ => negb (ok status)
  end.

Definition is_save (e : Config.event) : bool :=
  match e with Config.SaveConfig => true | _ => false end.

(** The request field, the storage key and the input of each service. *)
Definition field_of (i : Config.input) : string :=
  match i with
  | Config.Assemblyai => "assemblyai_api_key"
  | Config.Gemini => "gemini_api_key"
  | Config.Murf => "murf_api_key"
  | Config.Tavily => "tavily_api_key"
  end.

Definition key_of (i : Config.input) : string :=
  match i with
  | Config.Assemblyai => "key_assemblyai"
  | Config.Gemini => "key_gemini"
  | Config.Murf => "key_murf"
  | Config.Tavily => "key_tavily"
  end.

Definition typed (i : Config.input) (f : Config.form) : string :=
  match i with
  | Config.Assemblyai => Config.assemblyaiKey f
  | Config.Gemini => Config.geminiKey f
  | Config.Murf => Config.murfKey f
  | Config.Tavily => Config.tavilyKey f
  end.

(** A text starts (read backwards: ends) with white space. *)
Definition starts_ws (backwards : bool) (s : string) : bool :=
  match s with
  | EmptyString => false
  | String a s1 =>
      Text.ws1 a
      || match s1 with
         | EmptyString => false
         | String b s2 =>
             (if backwards then Text.ws2 b a else Text.ws2 a b)
             || match s2 with
                | EmptyString => false
                | String c _ =>
                    if backwards then Text.ws3 c b a else Text.ws3 a b c
                end
         end
  end.

(** ** Session identity *)

Section SessionIdentity.

Import Session.

Lemma pretty_N_go_nonempty (x : N) (s : string) :
  nonempty s = true -> nonempty (pretty_N_go x s) = true.
Proof.
  revert s. induction (N.lt_wf_0 x) as [x _ IH]; intros s Hs.
  destruct (decide (x = 0)%N) as [->|Hx].
  - now rewrite pretty_N_go_0.
  - rewrite pretty_N_go_step by lia.
    apply IH; [apply N.div_lt; lia | reflexivity].
Qed.

Lemma pretty_N_nonempty (x : N) : nonempty (pretty x) = true.
Proof.
  unfold pretty, pretty_N. destruct (decide (x = 0)%N) as [->|Hx].
  - reflexivity.
  - rewrite pretty_N_go_step by lia. now apply pretty_N_go_nonempty.
Qed.

Lemma params_get_set (name val : string) (params : list (string * string)) :
  params_get name (params_set name val params) = Some val.
Proof.
  unfold params_get.
  induction params as [|[k v] rest IH]; simpl.
  - now rewrite String.eqb_refl.
  - destruct (String.eqb name k) eqn:E; simpl; rewrite E; auto.
Qed.

Lemma absent_false (id : option string) :
  absent id = false ->
  exists s, id = Some s /\ nonempty s = true.
Proof.
  destruct id as [s|]; simpl; [|discriminate].
  intros H. exists s. split; [reflexivity|].
  now destruct (nonempty s).
Qed.

(** The key a call returns is afterwards the one found in the query
    string, and it is not empty. *)
Lemma ensureSessionId_stored (now : N) (t : tab) :
  params_get "session_id" (search (snd (ensureSessionId now t)))
    = Some (fst (ensureSessionId now t))
  /\ nonempty (fst (ensureSessionId now t)) = true.
Proof.
  unfold ensureSessionId.
  destruct (absent (params_get "session_id" (search t))) eqn:E; simpl.
  - split; [apply params_get_set | apply pretty_N_nonempty].
  - apply absent_false in E as (s & -> & Hs). simpl. auto.
Qed.

(** C6: a second call of [ensureSessionId], whatever the clock then reads,
    returns the key the first call returned and leaves the tab as the first
    call left it, both when the first call read the key from the query
    string and when it made one up and wrote it back. *)
Theorem ensureSessionId_idempotent (now1 now2 : N) (t : tab) :
  ensureSessionId now2 (snd (ensureSessionId now1 t)) = ensureSessionId now1 t.
Proof.
  destruct (ensureSessionId_stored now1 t) as [Hget Hne].
  destruct (ensureSessionId now1 t) as [id t1] eqn:E1. simpl in *.
  assert (Htext : sessionIdText t1 = None \/ sessionIdText t1 = Some id).
  { unfold ensureSessionId in E1.
    destruct (absent (params_get "session_id" (search t)));
      injection E1 as <- <-; simpl; destruct (sessionIdText t); auto. }
  unfold ensureSessionId. rewrite Hget. simpl. rewrite Hne. simpl.
  destruct t1 as [sr txt]; simpl in *.
  destruct Htext as [-> | ->]; reflexivity.
Qed.

End SessionIdentity.

(** ** Capture: what the recorded artifact is made of *)

Section CaptureArtifact.

(** The request's first field is the recording. *)
Lemma build_form_file (now : N) (b : blob) (c : Script.controls) :
  assoc "file" (Script.build_form now b c)
  = Some (FFile b ("rec_" +:+ pretty now +:+ ".webm")).
Proof.
  unfold Script.build_form, Script.append_key.
  repeat match goal with
         | |- context [if nonempty ?v then _ else _] => destruct (nonempty v)
         end; reflexivity.
Qed.
















End CaptureArtifact.

(** ** The outbound request *)

Section TurnRequest.

Import Script.

Lemma in_append_key (field v : string) (fd : form_data)
  (x : string * form_value) :
  In x (append_key field v fd)
  <-> In x fd \/ (nonempty v = true /\ x = (field, FText v)).
Proof.
  unfold append_key. destruct (nonempty v).
  - rewrite in_app_iff. simpl. intuition.
  - intuition discriminate.
Qed.

Lemma stored_key_configured (c : controls) (key v : string) :
  (nonempty (stored_key c key) = true /\ stored_key c key = v)
  <-> configured c key v.
Proof.
  unfold stored_key, configured.
  destruct (localStorage c !! key) as [w|] eqn:E.
  - destruct (nonempty w) eqn:Ew; simpl.
    + split.
      * intros [_ <-]. auto.
      * intros [[= <-] _]. auto.
    + split.
      * intros [H _]. discriminate.
      * intros [[= <-] H]. congruence.
  - simpl. split.
    + intros [H _]. discriminate.
    + intros [H _]. discriminate.
Qed.

Lemma stored_key_unconfigured (c : controls) (key : string) :
  (forall v, ~ configured c key v) -> stored_key c key = EmptyString.
Proof.
  intros H. destruct (nonempty (stored_key c key)) eqn:E.
  - exfalso. apply (H (stored_key c key)).
    now apply stored_key_configured.
  - now destruct (stored_key c key).
Qed.

(** C5: the request built when the recorder stops carries the concise flag
    as "1" and the web-search flag as "0" when the first toggle is checked
    and the second is not, and with no key configured it consists of the
    file and these two fields only; in general a per-service key field is
    in the request exactly when a non-empty text is stored for it, and then
    carries that text.  This request is what [onstop] puts in flight. *)
Theorem turn_request_fields :
  (forall (now : N) (b : blob) (c : controls),
     conciseToggle c = Some true ->
     webToggle c = Some false ->
     (forall field key v, In (field, key) credential_fields ->
                          ~ configured c key v) ->
     build_form now b c
     = [("file", FFile b ("rec_" +:+ pretty now +:+ ".webm"));
        ("concise", FText "1");
        ("web_search", FText "0")])
  /\ (forall (now : N) (b : blob) (c : controls) (field key v : string),
       In (field, key) credential_fields ->
       (In (field, FText v) (build_form now b c) <-> configured c key v))
  /\ (forall (now : N) (s : state),
       inflight (onstop now s)
       = inflight s
         ++ [{| url := "/agent/chat/" +:+ sessionId s;
                body := build_form now (new_Blob (chunks s)) (page s) |}]).
Proof.
  split; [|split].
  - intros now b c Hc Hw Hnone. unfold build_form.
    rewrite Hc, Hw.
    rewrite !stored_key_unconfigured; [reflexivity|..];
      intros v; eapply Hnone; simpl; eauto 6.
  - intros now b c field key v Hin.
    rewrite <- stored_key_configured.
    unfold build_form. rewrite !in_append_key. simpl.
    destruct Hin as [[= <- <-]|[[= <- <-]|[[= <- <-]|[[= <- <-]|[]]]]];
      (split;
       [ intros H; repeat destruct H as [H|H]; try discriminate H;
         try contradiction;
         destruct H as [Hne [= Hv]]; subst v; auto
       | intros [Hne <-]; auto 10 ]).
  - intros now s. reflexivity.
Qed.

(** part_000 has no toggles and reads no keys: its request is the
    recording alone. *)
Lemma part000_request_is_file_only (now : N) (b : blob) (s : Part000.state) :
  Part000.inflight (Part000.sendToAgent now b s)
  = Part000.inflight s
    ++ [{| url := "/agent/chat/" +:+ Part000.sessionId s;
           body := [("file", FFile b ("turn_" +:+ pretty now +:+ ".webm"))] |}].
Proof. reflexivity. Qed.

Lemma turn_request_fields_witness :
  conciseToggle {| conciseToggle := Some true; webToggle := Some false;
                   localStorage := ∅ |} = Some true
  /\ webToggle {| conciseToggle := Some true; webToggle := Some false;
                  localStorage := ∅ |} = Some false
  /\ build_form 1700 [x01]
       {| conciseToggle := Some true; webToggle := Some false;
          localStorage := ∅ |}
     = [("file", FFile [x01] "rec_1700.webm");
        ("concise", FText "1");
        ("web_search", FText "0")]
  /\ In ("murf_api_key", FText "abc")
       (build_form 1700 [x01]
          {| conciseToggle := Some true; webToggle := Some false;
             localStorage := {["key_murf" := "abc"]} |}).
Proof.
  split; [reflexivity|]. split; [reflexivity|]. split.
  - apply (proj1 turn_request_fields 1700%N [x01]
             {| conciseToggle := Some true; webToggle := Some false;
                localStorage := ∅ |} eq_refl eq_refl).
    intros field key v _ [Hlook _]. simpl in Hlook.
    rewrite lookup_empty in Hlook. discriminate.
  - apply (proj1 (proj2 turn_request_fields) 1700%N [x01]
             {| conciseToggle := Some true; webToggle := Some false;
                localStorage := {["key_murf" := "abc"]} |}
             "murf_api_key" "key_murf" "abc").
    + simpl. auto.
    + split; [vm_compute; reflexivity | reflexivity].
Defined.

End TurnRequest.

(** ** What a failed exchange reports *)

Section FailureMessage.

#[local] Arguments truthy : simpl never.

Lemma or_default_first (a : value) (d : json) :
  or_default a d = default d (first_truthy [a]).
Proof.
  unfold or_default. simpl.
  destruct a as [j|]; [destruct (truthy (Some j))|]; reflexivity.
Qed.

Lemma or_else_first (a b c : value) (d : json) :
  or_default (or_else (or_else a b) c) d
  = default d (first_truthy [a; b; c]).
Proof.
  unfold or_default, or_else.
  destruct a as [ja|], b as [jb|], c as [jc|]; simpl;
    repeat match goal with
           | |- context [truthy (Some ?j)] =>
               let E := fresh "E" in
               destruct (truthy (Some j)) eqn:E; simpl; rewrite ?E
           end;
    try reflexivity; try discriminate.
Qed.

Lemma as_message_text (v : json) :
  (if is_string v then to_string v else stringify v) = as_message v.
Proof. now destruct v. Qed.

(** A value that is not an object has no fields. *)
Lemma get_falsy (data : json) (k : string) :
  truthy (Some data) = false -> get data k = None.
Proof. destruct data; simpl; try reflexivity; discriminate. Qed.

(** The message of the error [fetchJson] throws on a non-success status. *)
Lemma fetchJson_message (status : N) (statusText : string)
  (parsed : option json) :
  ok status = false ->
  Part000.fetchJson (Responded status statusText parsed)
  = inl (match first_truthy [get (default JNull parsed) "error";
                             get (default JNull parsed) "stage";
                             get (default JNull parsed) "detail"] with
         | Some v => as_message v
         | None => Part000.status_line status statusText
         end).
Proof.
  intros Hok. unfold Part000.fetchJson. rewrite Hok. simpl negb. cbv iota.
  f_equal. rewrite as_message_text.
  set (data := default JNull parsed).
  unfold and_then. destruct (truthy (Some data)) eqn:Et.
  - rewrite or_else_first.
    now destruct (first_truthy _).
  - rewrite !(get_falsy data) by exact Et. simpl.
    unfold or_default. now rewrite Et.
Qed.

(** The error script.js throws on a non-success status, whatever the body. *)
Lemma exchange_message (status : N) (statusText : string)
  (parsed : option json) :
  ok status = false ->
  Script.exchange (Responded status statusText parsed)
  = inl (match parsed with
         | None => BodySyntaxError
         | Some JNull => NullDereference
         | Some js =>
             match first_truthy [get js "error"] with
             | Some v => if converts v then UserError (to_string v)
                         else NotConvertible
             | None => UserError "Server error"
             end
         end).
Proof.
  intros Hok. unfold Script.exchange. rewrite Hok. simpl negb.
  destruct parsed as [js|]; [|reflexivity].
  cbv iota. rewrite or_default_first.
  destruct js; try reflexivity.
  destruct (first_truthy _) as [v|]; simpl; [|reflexivity].
  now destruct (converts v).
Qed.

(** C4, as the scripts have it: on a non-success status the exchange fails
    with an error that carries no stage.  In part_000 the message is the
    first non-empty of the body's [error], [stage] and [detail] fields, as
    JSON text when it is not a string, and the status code with the status
    text when none is there or the body is not JSON.  In script.js [stage],
    [detail] and the status code are not read: a body that is not JSON makes
    [res.json()] throw, a [null] body makes reading [js.error] throw, and
    otherwise the error's message is the body's [error] field, or the fixed
    text "Server error" when that is absent or empty, unless the field does
    not convert to a string, which makes [new Error] throw a TypeError. *)
Theorem failure_message_sources (status : N) (statusText : string) :
  ok status = false ->
  (forall parsed : option json,
     Part000.fetchJson (Responded status statusText parsed)
     = inl (match first_truthy [get (default JNull parsed) "error";
                                get (default JNull parsed) "stage";
                                get (default JNull parsed) "detail"] with
            | Some v => as_message v
            | None => Part000.status_line status statusText
            end))
  /\ (forall parsed : option json,
       Script.exchange (Responded status statusText parsed)
       = inl (match parsed with
              | None => BodySyntaxError
              | Some JNull => NullDereference
              | Some js =>
                  match first_truthy [get js "error"] with
                  | Some v => if converts v then UserError (to_string v)
                              else NotConvertible
                  | None => UserError "Server error"
                  end
              end)).
Proof.
  intros Hok. split.
  - intros parsed. now apply fetchJson_message.
  - intros parsed. now apply exchange_message.
Qed.

Lemma failure_message_sources_witness :
  ok 500 = false
  /\ Part000.fetchJson
       (Responded 500 "Internal Server Error"
          (Some (JObj [("stage", JStr "llm"); ("error", JStr "Gemini HTTP 403")])))
     = inl "Gemini HTTP 403"
  /\ Script.exchange (Responded 500 "Internal Server Error" (Some (JObj [])))
     = inl (UserError "Server error")
  /\ Script.exchange (Responded 502 "Bad Gateway" None) = inl BodySyntaxError
  /\ Script.exchange (Responded 500 "Internal Server Error" (Some JNull))
     = inl NullDereference
  /\ Script.exchange
       (Responded 500 "Internal Server Error"
          (Some (JObj [("error", JObj [("toString", JNum "1")])])))
     = inl NotConvertible.
Proof.
  split; [reflexivity|].
  destruct (failure_message_sources 500 "Internal Server Error" eq_refl)
    as [Hpart Hscript].
  split; [|split; [|split; [|split]]].
  - exact (Hpart (Some (JObj [("stage", JStr "llm");
                              ("error", JStr "Gemini HTTP 403")]))).
  - exact (Hscript (Some (JObj []))).
  - exact (proj2 (failure_message_sources 502 "Bad Gateway" eq_refl) None).
  - exact (Hscript (Some JNull)).
  - exact (Hscript (Some (JObj [("error", JObj [("toString", JNum "1")])]))).
Defined.

(** C4 as stated fails: for a 500 response whose body has a [stage] and a
    [detail] but no [error], the specified failure has the stage
    "synthesize" and the message "quota exceeded", while part_000 throws an
    error whose message is the stage and script.js one whose message is
    "Server error". *)
Lemma failure_message_counterexample :
  specified_failure 500 "Internal Server Error"
    (JObj [("stage", JStr "synthesize"); ("detail", JStr "quota exceeded")])
  = (Some (JStr "synthesize"), "quota exceeded")
  /\ Part000.fetchJson
       (Responded 500 "Internal Server Error"
          (Some (JObj [("stage", JStr "synthesize");
                       ("detail", JStr "quota exceeded")])))
     = inl "synthesize"
  /\ Script.exchange
       (Responded 500 "Internal Server Error"
          (Some (JObj [("stage", JStr "synthesize");
                       ("detail", JStr "quota exceeded")])))
     = inl (UserError "Server error").
Proof. repeat split. Qed.

End FailureMessage.

(** ** How a settled exchange is presented *)

Section TurnOutcome.

#[local] Arguments truthy : simpl never.

(** [failed] tells which way [onstop]'s continuation goes. *)
Lemma script_failed_settles (out : fetch_outcome) (started : bool)
  (s : Script.state) :
  failed out = true ->
  Script.onstop_settled out started s = Script.on_failure started s.
Proof.
  unfold failed, Script.onstop_settled, Script.exchange.
  destruct out as [m | status text [js|]]; try reflexivity.
  destruct js; simpl; intros H; rewrite ?H; try reflexivity;
    try (now destruct (converts _)).
  destruct (ok status); reflexivity.
Qed.











End TurnOutcome.

(** ** The turn-detection socket *)

Section TurnSignal.

Import TurnSocket.

#[local] Arguments truthy : simpl never.

(** Only an object has a [type] field. *)
Lemma get_some_truthy (payload : json) (k : string) (v : json) :
  get payload k = Some v -> truthy (Some payload) = true.
Proof. destruct payload; simpl; try discriminate; reflexivity. Qed.

Lemma is_boundary_iff (payload : json) :
  is_boundary payload = true
  <-> get payload "type" = Some (JStr "turn")
      /\ truthy (get payload "end_of_turn") = true.
Proof.
  unfold is_boundary. rewrite !andb_true_iff. split.
  - intros [[_ Htype] Hend]. split; [|exact Hend].
    destruct (get payload "type") as [[| | |t| |]|]; try discriminate.
    apply String.eqb_eq in Htype. now subst.
  - intros [Htype Hend]. repeat split; [|now rewrite Htype|exact Hend].
    eapply get_some_truthy, Htype.
Qed.

Lemma step_constructed (e : event) (p : page) :
  constructed (step e p) = constructed p.
Proof.
  destruct e as [|parsed| |]; simpl; try reflexivity.
  unfold onmessage. destruct parsed as [payload|]; [|reflexivity].
  now destruct (is_boundary payload).
Qed.

Lemma run_constructed (es : list event) (p : page) :
  constructed (run es p) = constructed p.
Proof.
  revert p. induction es as [|e es IH]; intros p; simpl; [reflexivity|].
  unfold run in IH. rewrite IH. apply step_constructed.
Qed.

(** C8, as script.js has it: the handler acts on a message exactly when its
    data parses as JSON with [type] equal to "turn" and a truthy
    [end_of_turn], whether or not that is the boolean [true].  It then
    reveals the panel and logs one row, the transcript or "(no transcript)",
    unless the transcript does not convert to a string, in which case no row
    is logged.  Any other message, JSON or not, leaves the page as it was,
    and no message ever changes the state of the turn loop.  For a boolean
    [end_of_turn] and a transcript that converts, a row is logged exactly
    when [end_of_turn] is [true]; so the message with type "turn",
    [end_of_turn] [true] and transcript "hello" logs the row "hello". *)
Theorem boundary_handling (parsed : option json) (p : page) :
  let row := fun payload : json =>
    default (JStr "(no transcript)")
      (first_truthy [get payload "transcript"]) in
  let matches :=
    exists payload,
      parsed = Some payload
      /\ get payload "type" = Some (JStr "turn")
      /\ truthy (get payload "end_of_turn") = true in
  loop (onmessage parsed p) = loop p
  /\ (forall payload,
        parsed = Some payload ->
        get payload "type" = Some (JStr "turn") ->
        truthy (get payload "end_of_turn") = true ->
        turnBox_hidden (onmessage parsed p) = false
        /\ turnLog (onmessage parsed p)
           = if converts (row payload)
             then turnLog p ++ [to_string (row payload)]
             else turnLog p)
  /\ (~ matches -> onmessage parsed p = p)
  /\ (length (turnLog (onmessage parsed p)) = S (length (turnLog p))
      <-> exists payload,
            parsed = Some payload
            /\ get payload "type" = Some (JStr "turn")
            /\ truthy (get payload "end_of_turn") = true
            /\ converts (row payload) = true)
  /\ (forall payload (b : bool),
        parsed = Some payload ->
        get payload "type" = Some (JStr "turn") ->
        get payload "end_of_turn" = Some (JBool b) ->
        converts (row payload) = true ->
        (length (turnLog (onmessage parsed p)) = S (length (turnLog p))
         <-> b = true))
  /\ turnLog
       (onmessage
          (Some (JObj [("type", JStr "turn"); ("end_of_turn", JBool true);
                       ("transcript", JStr "hello")])) p)
     = turnLog p ++ ["hello"].
Proof.
  intros row matches.
  assert (Hyes : forall payload,
            parsed = Some payload ->
            get payload "type" = Some (JStr "turn") ->
            truthy (get payload "end_of_turn") = true ->
            onmessage parsed p
            = {| loop := loop p; turnSocket := turnSocket p;
                 constructed := constructed p; turnBox_hidden := false;
                 turnLog := if converts (row payload)
                            then turnLog p ++ [to_string (row payload)]
                            else turnLog p |}).
  { intros payload -> Htype Hend. unfold onmessage.
    rewrite (proj2 (is_boundary_iff payload) (conj Htype Hend)).
    now rewrite or_default_first. }
  assert (Hno : ~ matches -> onmessage parsed p = p).
  { intros Hn. unfold onmessage. destruct parsed as [payload|]; [|reflexivity].
    destruct (is_boundary payload) eqn:E; [|reflexivity].
    exfalso. apply Hn. exists payload. split; [reflexivity|].
    now apply is_boundary_iff. }
  assert (Hiff : length (turnLog (onmessage parsed p)) = S (length (turnLog p))
                 <-> exists payload,
                       parsed = Some payload
                       /\ get payload "type" = Some (JStr "turn")
                       /\ truthy (get payload "end_of_turn") = true
                       /\ converts (row payload) = true).
  { split.
    - intros Hlen. destruct parsed as [payload|].
      + destruct (is_boundary payload) eqn:E.
        * apply is_boundary_iff in E as [Htype Hend].
          exists payload. repeat split; try assumption.
          rewrite (Hyes payload eq_refl Htype Hend) in Hlen. simpl in Hlen.
          destruct (converts (row payload)); [reflexivity|lia].
        * unfold onmessage in Hlen. rewrite E in Hlen. lia.
      + simpl in Hlen. lia.
    - intros (payload & Hp & Htype & Hend & Hrow).
      rewrite (Hyes payload Hp Htype Hend). simpl. rewrite Hrow.
      rewrite length_app. simpl. lia. }
  split; [|split; [|split; [exact Hno|split; [exact Hiff|split]]]].
  - unfold onmessage. destruct parsed as [payload|]; [|reflexivity].
    now destruct (is_boundary payload).
  - intros payload Hp Htype Hend. now rewrite (Hyes payload Hp Htype Hend).
  - intros payload b Hp Htype Hend Hrow. rewrite Hiff. split.
    + intros (payload' & Hp' & _ & Hend' & _).
      rewrite Hp in Hp'. injection Hp' as <-.
      rewrite Hend in Hend'. exact Hend'.
    + intros ->. exists payload. rewrite Hend. auto.
  - reflexivity.
Qed.

(** C8 as stated fails: a message whose [end_of_turn] is the text "false",
    or the number 1, is not one with [end_of_turn] true, and the handler
    reveals the panel and logs a row for it all the same; and a message with
    [end_of_turn] true whose transcript is an object with a [toString] field
    reveals the panel and logs nothing. *)
Lemma boundary_handling_counterexample :
  let p := {| loop := Script.init "1700"
                        {| Script.conciseToggle := None;
                           Script.webToggle := None;
                           Script.localStorage := ∅ |};
              turnSocket := Some Open; constructed := 1;
              turnBox_hidden := true; turnLog := [] |} in
  let text_false := JObj [("type", JStr "turn"); ("end_of_turn", JStr "false")] in
  let one := JObj [("type", JStr "turn"); ("end_of_turn", JNum "1");
                   ("transcript", JStr "so")] in
  let object := JObj [("type", JStr "turn"); ("end_of_turn", JBool true);
                      ("transcript", JObj [("toString", JNum "1")])] in
  specified_boundary (Some text_false) = false
  /\ turnBox_hidden (onmessage (Some text_false) p) = false
  /\ turnLog (onmessage (Some text_false) p) = ["(no transcript)"]
  /\ specified_boundary (Some one) = false
  /\ turnLog (onmessage (Some one) p) = ["so"]
  /\ specified_boundary (Some object) = true
  /\ turnBox_hidden (onmessage (Some object) p) = false
  /\ turnLog (onmessage (Some object) p) = [].
Proof. vm_compute. repeat split. Qed.

(** C9: whatever the socket delivers, [close] included and whatever comes
    after it, the script constructs no further socket: only
    [initTurnSocket], which no socket handler calls, does. *)
Theorem no_reconnect_after_close (es : list event) (p : page) :
  constructed (step WsClose p) = constructed p
  /\ constructed (run (WsClose :: es) p) = constructed p
  /\ onclose p = p.
Proof.
  split; [|split].
  - apply step_constructed.
  - apply run_constructed.
  - reflexivity.
Qed.

End TurnSignal.

(** ** The turn loop of script.js *)

Section TurnLoop.

Import Script.

Lemma count_insert (p : recorder -> bool) (rs : list recorder) (r : nat)
  (a b : recorder) :
  rs !! r = Some a ->
  length (List.filter p (<[r := b]> rs)) + (if p a then 1 else 0)
  = length (List.filter p rs) + (if p b then 1 else 0).
Proof.
  revert r. induction rs as [|x rs IH]; intros r Hr; [discriminate|].
  destruct r as [|r]; simpl in *.
  - injection Hr as ->. destruct (p a), (p b); simpl; lia.
  - specialize (IH r Hr). destruct (p x); simpl; lia.
Qed.



(** The fields of the state that settling a request leaves alone. *)
Lemma onstop_settled_fields (out : fetch_outcome) (started : bool)
  (s : state) :
  let s' := onstop_settled out started s in
  recorders s' = recorders s
  /\ mediaRecorder s' = mediaRecorder s
  /\ isRecording s' = isRecording s
  /\ acquiring s' = acquiring s
  /\ inflight s' = inflight s
  /\ playing (aiAudio s') = started.
Proof.
  unfold onstop_settled, show_reply.
  destruct (exchange out) as [err|js]; [repeat split|].
  destruct js;
    repeat match goal with
           | |- context [if converts ?v then _ else _] => destruct (converts v)
           end; repeat split.
Qed.













(** The [catch] block installs no handler and starts no capture: after a
    failure that no success preceded, the end of the fallback audio changes
    nothing but the playing flag. *)
Lemma first_failure_stays_idle (out : fetch_outcome) (s : state) :
  failed out = true ->
  onended (aiAudio s) = false ->
  acquiring (audio_ended (onstop_settled out true s)) = acquiring s
  /\ isRecording (audio_ended (onstop_settled out true s)) = isRecording s.
Proof.
  intros Hfail Hend. rewrite script_failed_settles by exact Hfail.
  unfold audio_ended, on_failure. simpl. rewrite Hend. split; reflexivity.
Qed.

(** ... but the handler a successful turn installed is still there after a
    later failure. *)
Lemma failure_keeps_handler (out : fetch_outcome) (started : bool)
  (s : state) :
  failed out = true ->
  onended (aiAudio (onstop_settled out started s)) = onended (aiAudio s).
Proof.
  intros Hfail. now rewrite script_failed_settles by exact Hfail.
Qed.

(** So once a turn has succeeded, the end of the fallback audio of any
    later failed turn requests the device. *)
Lemma stale_handler_requests_device (out : fetch_outcome) (s : state) :
  failed out = true ->
  onended (aiAudio s) = true ->
  step AudioEnded (onstop_settled out true s)
  = Some (audio_ended (onstop_settled out true s))
  /\ acquiring (audio_ended (onstop_settled out true s)) = S (acquiring s).
Proof.
  intros Hfail Hend. rewrite script_failed_settles by exact Hfail.
  unfold audio_ended, on_failure. simpl. rewrite Hend. split; reflexivity.
Qed.

(** In part_000 a failed turn starts neither playback nor capture. *)
Lemma part000_failure_is_silent (out : fetch_outcome) (message : string)
  (started : bool) (s : Part000.state) :
  Part000.fetchJson out = inl message ->
  Part000.aiAudio (Part000.sendToAgent_settled out started s)
  = Part000.aiAudio s
  /\ Part000.acquiring (Part000.sendToAgent_settled out started s)
     = Part000.acquiring s.
Proof.
  intros Hmsg. unfold Part000.sendToAgent_settled. rewrite Hmsg.
  split; reflexivity.
Qed.

(** C2 at the failing sequence: a successful first turn, the capture it
    resumes, and a second turn that fails.  When the failure is handled
    nothing is recording or requested; when the fallback audio ends the
    handler left by the first turn requests the device, and once granted a
    capture is live with no gesture made since the failure. *)
Theorem stale_handler_resumes_after_failure :
  (fun s => (isRecording s, acquiring s, live s, src (aiAudio s),
             onended (aiAudio s)))
    <$> run [Click; MediaGranted; Click; RecorderStopped 0 1700;
             FetchSettled 0
               (Responded 200 "OK"
                  (Some (JObj [("transcript", JStr "hello");
                               ("llm_text", JStr "hi there");
                               ("audio_url", JStr "https://x/reply.mp3")])))
               true;
             AudioEnded; MediaGranted; Click; RecorderStopped 1 1800;
             FetchSettled 0
               (Responded 500 "Internal Server Error"
                  (Some (JObj [("stage", JStr "synthesize");
                               ("error", JStr "quota exceeded")])))
               true]
          (init "1700" {| conciseToggle := None; webToggle := None;
                          localStorage := ∅ |})
  = Some (false, 0, 0, "/static/fallback.mp3", true)
  /\ (fun s => (isRecording s, acquiring s, live s))
       <$> run [Click; MediaGranted; Click; RecorderStopped 0 1700;
                FetchSettled 0
                  (Responded 200 "OK"
                     (Some (JObj [("transcript", JStr "hello");
                                  ("llm_text", JStr "hi there");
                                  ("audio_url", JStr "https://x/reply.mp3")])))
                  true;
                AudioEnded; MediaGranted; Click; RecorderStopped 1 1800;
                FetchSettled 0
                  (Responded 500 "Internal Server Error"
                     (Some (JObj [("stage", JStr "synthesize");
                                  ("error", JStr "quota exceeded")])))
                  true;
                AudioEnded; MediaGranted]
             (init "1700" {| conciseToggle := None; webToggle := None;
                             localStorage := ∅ |})
     = Some (true, 0, 1).
Proof. split; vm_compute; reflexivity. Qed.

End TurnLoop.

(** ** More on session identity and page load *)

Section SessionMore.

Import Session.





(** X2: when the URL already carries a non-empty [session_id], the call
    returns it whatever the clock reads and writes nothing to the query
    string, so a reload of the same URL resumes the same conversation. *)
Theorem ensureSessionId_reuses_url_key (now : N) (t : tab) (id : string) :
  params_get "session_id" (search t) = Some id ->
  nonempty id = true ->
  fst (ensureSessionId now t) = id
  /\ search (snd (ensureSessionId now t)) = search t.
Proof.
  intros Hget Hne. unfold ensureSessionId. rewrite Hget. simpl.
  rewrite Hne. simpl. auto.
Qed.

Lemma ensureSessionId_reuses_url_key_witness :
  fst (ensureSessionId 1700
         {| search := [("lang", "en"); ("session_id", "abc")];
            sessionIdText := None |}) = "abc"
  /\ search (snd (ensureSessionId 1700
                    {| search := [("lang", "en"); ("session_id", "abc")];
                       sessionIdText := None |}))
     = [("lang", "en"); ("session_id", "abc")].
Proof.
  apply (ensureSessionId_reuses_url_key 1700%N
           {| search := [("lang", "en"); ("session_id", "abc")];
              sessionIdText := None |} "abc");
    reflexivity.
Defined.

(** X3: two tabs opened without a key get the same key exactly when
    their clocks read the same millisecond. *)
Theorem synthesized_keys_collide_iff_same_ms (now1 now2 : N) (t1 t2 : tab) :
  absent (params_get "session_id" (search t1)) = true ->
  absent (params_get "session_id" (search t2)) = true ->
  (fst (ensureSessionId now1 t1) = fst (ensureSessionId now2 t2)
   <-> now1 = now2).
Proof.
  intros H1 H2. unfold ensureSessionId. rewrite H1, H2. simpl. split.
  - apply pretty_N_inj.
  - now intros ->.
Qed.

Lemma synthesized_keys_collide_iff_same_ms_witness :
  fst (ensureSessionId 1700 {| search := []; sessionIdText := None |})
  = fst (ensureSessionId 1700
           {| search := [("session_id", EmptyString)];
              sessionIdText := None |})
  <-> 1700%N = 1700%N.
Proof.
  apply (synthesized_keys_collide_iff_same_ms 1700%N 1700%N
           {| search := []; sessionIdText := None |}
           {| search := [("session_id", EmptyString)];
              sessionIdText := None |});
    reflexivity.
Defined.

(** X4: part_000 makes and writes back the key exactly as script.js
    does, but its write to the [sessionIdText] element is unguarded: the
    script goes on, with the key [ensureSessionId] would return, exactly
    when the element exists, and stops at that line otherwise, the URL
    already rewritten. *)
Theorem part000_load_as_ensureSessionId (now : N) (t : tab) :
  fst (PageLoad.part000_load now t) = snd (ensureSessionId now t)
  /\ snd (PageLoad.part000_load now t)
     = match sessionIdText t with
       | Some _ => Some (fst (ensureSessionId now t))
       | None => None
       end.
Proof.
  unfold PageLoad.part000_load, ensureSessionId.
  destruct (absent (params_get "session_id" (search t)));
    destruct (sessionIdText t); split; reflexivity.
Qed.


End SessionMore.

(** ** The socket's address *)

Section SocketAddress.

Import Text.

Lemma encode_unreserved (s : string) :
  all_chars unreserved s = true -> encodeURIComponent s = s.
Proof.
  induction s as [|a s IH]; simpl; [reflexivity|].
  intros H. apply andb_true_iff in H as [Ha Hs].
  rewrite Ha. now rewrite IH.
Qed.

Lemma pretty_N_char_unreserved (x : N) : unreserved (pretty_N_char x) = true.
Proof. unfold pretty_N_char. repeat case_match; reflexivity. Qed.

Lemma pretty_N_go_unreserved (x : N) (s : string) :
  all_chars unreserved s = true ->
  all_chars unreserved (pretty_N_go x s) = true.
Proof.
  revert s. induction (N.lt_wf_0 x) as [x _ IH]; intros s Hs.
  destruct (decide (x = 0)%N) as [->|Hx].
  - now rewrite pretty_N_go_0.
  - rewrite pretty_N_go_step by lia.
    apply IH; [apply N.div_lt; lia|].
    simpl. now rewrite pretty_N_char_unreserved.
Qed.

Lemma pretty_N_unreserved (x : N) : all_chars unreserved (pretty x) = true.
Proof.
  unfold pretty, pretty_N. destruct (decide (x = 0)%N); [reflexivity|].
  now apply pretty_N_go_unreserved.
Qed.

(** X6: a key the page made up itself is a decimal number, which
    [encodeURIComponent] leaves as it is: the socket is opened at
    [ws://<host>/ws/transcribe?session_id=<the timestamp>]. *)
Theorem turnSocket_url_of_synthesized_key (host : string) (now : N)
  (t : Session.tab) :
  Session.absent (Session.params_get "session_id" (Session.search t)) = true ->
  PageLoad.turnSocket_url host (fst (Session.ensureSessionId now t))
  = "ws://" +:+ host +:+ "/ws/transcribe?session_id=" +:+ pretty now.
Proof.
  intros Habs. unfold PageLoad.turnSocket_url, Session.ensureSessionId.
  rewrite Habs. cbn [fst]. now rewrite encode_unreserved by apply pretty_N_unreserved.
Qed.

Lemma turnSocket_url_of_synthesized_key_witness :
  PageLoad.turnSocket_url "127.0.0.1:8000"
    (fst (Session.ensureSessionId 1700
            {| Session.search := []; Session.sessionIdText := None |}))
  = "ws://127.0.0.1:8000/ws/transcribe?session_id=1700".
Proof.
  apply (turnSocket_url_of_synthesized_key "127.0.0.1:8000" 1700%N
           {| Session.search := []; Session.sessionIdText := None |}).
  reflexivity.
Defined.

Lemma HEX_digit_unreserved (n : N) : unreserved (HEX_digit n) = true.
Proof. unfold HEX_digit. repeat case_match; reflexivity. Qed.

(** X7: whatever the key, its encoded form in the socket's address is
    made of unreserved characters and percent signs only, so no key can add
    a parameter to the query or cut it short. *)
Theorem encoded_key_is_inert (s : string) :
  all_chars (fun a => unreserved a || Ascii.eqb a "%")
    (encodeURIComponent s) = true.
Proof.
  induction s as [|a s IH]; simpl; [reflexivity|].
  destruct (unreserved a) eqn:Ea; simpl.
  - now rewrite Ea, IH.
  - now rewrite !HEX_digit_unreserved, IH.
Qed.

Lemma hex_value_HEX_digit (n : N) :
  (n < 16)%N -> hex_value (HEX_digit n) = n.
Proof.
  intros Hn. destruct n as [|p]; [reflexivity|].
  do 4 (try (destruct p as [p|p|]; try reflexivity)); lia.
Qed.

Lemma code_bound (a : ascii) : (code a < 256)%N.
Proof. apply N_ascii_bounded. Qed.

Lemma percent_reserved : unreserved "%" = false.
Proof. reflexivity. Qed.

Lemma append_inv_head (p a b : string) : p +:+ a = p +:+ b -> a = b.
Proof.
  induction p as [|c p IH]; simpl; intros H; [exact H|].
  injection H as H. now apply IH.
Qed.

Lemma code_inj (a b : ascii) : code a = code b -> a = b.
Proof.
  unfold code. intros H.
  rewrite <- (ascii_N_embedding a), <- (ascii_N_embedding b). now rewrite H.
Qed.

Lemma encodeURIComponent_inj (s1 s2 : string) :
  encodeURIComponent s1 = encodeURIComponent s2 -> s1 = s2.
Proof.
  revert s2. induction s1 as [|a s1 IH]; intros [|b s2]; simpl.
  - reflexivity.
  - destruct (unreserved b); discriminate.
  - destruct (unreserved a); discriminate.
  - destruct (unreserved a) eqn:Ea, (unreserved b) eqn:Eb; intros H.
    + injection H as -> H. f_equal. now apply IH.
    + injection H as -> _. rewrite percent_reserved in Ea. discriminate.
    + injection H as <- _. rewrite percent_reserved in Eb. discriminate.
    + injection H as Hhi Hlo H.
      pose proof (code_bound a) as Ba. pose proof (code_bound b) as Bb.
      apply (f_equal hex_value) in Hhi, Hlo.
      rewrite !hex_value_HEX_digit in Hhi
        by (apply N.Div0.div_lt_upper_bound; lia).
      rewrite !hex_value_HEX_digit in Hlo by (apply N.mod_lt; lia).
      f_equal; [|now apply IH].
      apply code_inj.
      rewrite (N.div_mod (code a) 16), (N.div_mod (code b) 16) by lia.
      now rewrite Hhi, Hlo.
Qed.

(** X8: different keys never share a socket address: on a given host
    [turnSocket_url], and with it [encodeURIComponent], is one-to-one. *)
Theorem turnSocket_url_injective (host id1 id2 : string) :
  PageLoad.turnSocket_url host id1 = PageLoad.turnSocket_url host id2 ->
  id1 = id2.
Proof.
  unfold PageLoad.turnSocket_url. intros H.
  do 3 apply append_inv_head in H.
  now apply encodeURIComponent_inj.
Qed.

Lemma turnSocket_url_injective_witness :
  "a b" = "a b".
Proof.
  apply (turnSocket_url_injective "127.0.0.1:8000" "a b" "a b").
  reflexivity.
Defined.

End SocketAddress.

(** ** More on the turn loop of script.js *)

Section TurnLoopMore.

Import Script.

Lemma mode_listening_text :
  Avatar.toModeFromText "Listening… tap to stop" = Avatar.Listening.
Proof. vm_compute. reflexivity. Qed.

Lemma mode_thinking_text :
  Avatar.toModeFromText "Thinking…" = Avatar.Idle.
Proof. vm_compute. reflexivity. Qed.

Lemma onstop_settled_face (out : fetch_outcome) (started : bool) (s : state) :
  face (onstop_settled out started s) = face s.
Proof.
  unfold onstop_settled, show_reply.
  destruct (exchange out) as [err|js]; [reflexivity|].
  destruct js;
    repeat match goal with
           | |- context [if converts ?v then _ else _] => destruct (converts v)
           end; reflexivity.
Qed.

Lemma ondataavailable_face (data : option blob) (s : state) :
  face (ondataavailable data s) = face s.
Proof.
  unfold ondataavailable.
  destruct data as [b|]; [destruct (0 <? length b)%nat|]; reflexivity.
Qed.

(** An event leaves flag, button and status line alone, or sets them all
    to listening, or all to thinking. *)
Lemma face_step (e : event) (s s' : state) :
  step e s = Some s' ->
  face s' = face s
  \/ face s' = (true, true, true, "Listening… tap to stop")
  \/ face s' = (false, false, false, "Thinking…").
Proof.
  intros Hstep.
  destruct e as [| |message|r data|r now|i out started| |c|r];
    simpl in Hstep.
  - injection Hstep as <-. unfold click.
    destruct (isRecording s) eqn:Eflag; [|now left].
    unfold stopRecording. rewrite Eflag.
    destruct (mediaRecorder s); [right; right; reflexivity | now left].
  - destruct (acquiring s); [discriminate|]. injection Hstep as <-.
    right; left; reflexivity.
  - destruct (acquiring s); [discriminate|]. injection Hstep as <-.
    now left.
  - assert (Hs' : s' = ondataavailable data s).
    { destruct (recorders s !! r) as [[| |]|]; congruence. }
    subst s'. left. apply ondataavailable_face.
  - destruct (recorders s !! r) as [[| |]|]; try discriminate.
    injection Hstep as <-. now left.
  - destruct (inflight s !! i); [|discriminate]. injection Hstep as <-.
    left. now rewrite onstop_settled_face.
  - destruct (playing (aiAudio s)); [|discriminate]. injection Hstep as <-.
    left. unfold audio_ended. now destruct (onended (aiAudio s)).
  - injection Hstep as <-. now left.
  - destruct (recorders s !! r) as [[| |]|]; try discriminate.
    injection Hstep as <-. now left.
Qed.

(** A property of the face that holds of the two faces the script writes
    is kept along every run. *)
Lemma face_invariant (P : bool * bool * bool * string -> Prop) :
  P (true, true, true, "Listening… tap to stop") ->
  P (false, false, false, "Thinking…") ->
  forall es s s', P (face s) -> run es s = Some s' -> P (face s').
Proof.
  intros Hl Ht es. induction es as [|e es IH]; intros s s' Hs Hrun;
    simpl in Hrun.
  - now injection Hrun as <-.
  - destruct (step e s) as [s1|] eqn:Hstep; [|discriminate].
    apply (IH s1); [|exact Hrun].
    destruct (face_step e s s1 Hstep) as [-> | [-> | ->]]; assumption.
Qed.

(** X9: the record button always tells the truth about the flag: from a
    state where [aria-pressed] and the [pulse] class agree with
    [isRecording], they agree with it in every state the page reaches. *)
Theorem button_mirrors_flag (es : list event) (s s' : state) :
  ariaPressed (ui s) = isRecording s ->
  pulse (ui s) = isRecording s ->
  run es s = Some s' ->
  ariaPressed (ui s') = isRecording s' /\ pulse (ui s') = isRecording s'.
Proof.
  intros Ha Hp Hrun.
  apply (face_invariant
           (fun f => snd (fst (fst f)) = fst (fst (fst f))
                     /\ snd (fst f) = fst (fst (fst f)))
           (conj eq_refl eq_refl) (conj eq_refl eq_refl) es s s');
    [split; assumption | exact Hrun].
Qed.

Lemma button_mirrors_flag_witness :
  ariaPressed (ui (startRecording_granted
                     (startRecording
                        (init "1700" {| conciseToggle := None;
                                        webToggle := None;
                                        localStorage := ∅ |}))))
  = true.
Proof.
  apply (button_mirrors_flag [Click; MediaGranted]
           (init "1700" {| conciseToggle := None; webToggle := None;
                           localStorage := ∅ |})
           _ eq_refl eq_refl eq_refl).
Defined.

(** X10: the avatar's two signals that watch the turn loop follow the
    flag: from a state where button and status line agree with
    [isRecording], in every state the page reaches both the [aria-pressed]
    signal and the status-text signal ask for the listening image when
    [isRecording] is set and for the idle image when it is not. *)
Theorem avatar_signals_follow_flag (es : list event) (s s' : state) :
  ariaPressed (ui s) = isRecording s ->
  Avatar.toModeFromText (statusText (ui s)) = mode_of_flag (isRecording s) ->
  run es s = Some s' ->
  Avatar.signal (Avatar.AttributeChanged "aria-pressed"
                   (Some (aria_text (ariaPressed (ui s')))))
  = Some (mode_of_flag (isRecording s'))
  /\ Avatar.signal (Avatar.StatusChanged (statusText (ui s')))
     = Some (mode_of_flag (isRecording s')).
Proof.
  intros Ha Hm Hrun.
  assert (H : ariaPressed (ui s') = isRecording s'
              /\ Avatar.toModeFromText (statusText (ui s'))
                 = mode_of_flag (isRecording s')).
  { apply (face_invariant
             (fun f => snd (fst (fst f)) = fst (fst (fst f))
                       /\ Avatar.toModeFromText (snd f)
                          = mode_of_flag (fst (fst (fst f))))
             (conj eq_refl mode_listening_text)
             (conj eq_refl mode_thinking_text) es s s');
      [split; assumption | exact Hrun]. }
  destruct H as [Ha' Hm']. split.
  - rewrite Ha'. now destruct (isRecording s').
  - unfold Avatar.signal. now rewrite Hm'.
Qed.

Lemma avatar_signals_follow_flag_witness :
  Avatar.signal
    (Avatar.StatusChanged
       (statusText
          (ui (startRecording_granted
                 (startRecording
                    (init "1700" {| conciseToggle := None; webToggle := None;
                                    localStorage := ∅ |}))))))
  = Some Avatar.Listening.
Proof.
  apply (avatar_signals_follow_flag [Click; MediaGranted]
           (init "1700" {| conciseToggle := None; webToggle := None;
                           localStorage := ∅ |})
           _ eq_refl eq_refl eq_refl).
Defined.

(** X11: nothing happens without the microphone: in a run from page load
    in which no device request is granted, whatever else is delivered, no
    recorder exists, no request is sent, nothing is played and the chat
    stays empty. *)
Theorem no_grant_no_turn (id : string) (c : controls) (es : list event)
  (s : state) :
  existsb is_grant es = false ->
  run es (init id c) = Some s ->
  recorders s = [] /\ inflight s = [] /\ isRecording s = false
  /\ playing (aiAudio s) = false /\ chatWindow (ui s) = [].
Proof.
  assert (H : forall es s0 s,
            (recorders s0 = [] /\ inflight s0 = [] /\ isRecording s0 = false
             /\ playing (aiAudio s0) = false /\ chatWindow (ui s0) = []) ->
            existsb is_grant es = false ->
            run es s0 = Some s ->
            recorders s = [] /\ inflight s = [] /\ isRecording s = false
            /\ playing (aiAudio s) = false /\ chatWindow (ui s) = []).
  { clear. intros es. induction es as [|e es IH];
      intros s0 s Hs Hno Hrun; simpl in Hrun.
    - now injection Hrun as <-.
    - simpl in Hno. apply orb_false_iff in Hno as [He Hes].
      destruct (step e s0) as [s1|] eqn:Hstep; [|discriminate].
      apply (IH s1 s); [|exact Hes|exact Hrun].
      destruct Hs as (Hr & Hi & Hf & Hp & Hc).
      destruct e as [| |message|r data|r now|i out started| |c|r];
        simpl in Hstep; try discriminate He.
      + injection Hstep as <-. unfold click. rewrite Hf.
        unfold startRecording. simpl. auto.
      + destruct (acquiring s0); [discriminate|]. injection Hstep as <-.
        simpl. auto.
      + rewrite Hr in Hstep. discriminate.
      + rewrite Hr in Hstep. discriminate.
      + rewrite Hi in Hstep. discriminate.
      + rewrite Hp in Hstep. discriminate.
      + injection Hstep as <-. simpl. auto.
      + rewrite Hr in Hstep. discriminate. }
  intros Hno Hrun. apply (H es (init id c) s); auto.
Qed.

Lemma no_grant_no_turn_witness :
  exists s,
    run [Click; MediaDenied "Permission denied"; Click]
      (init "1700" {| conciseToggle := None; webToggle := None;
                      localStorage := ∅ |}) = Some s
    /\ inflight s = [] /\ acquiring s = 1.
Proof.
  eexists. split; [reflexivity|]. split; [|reflexivity].
  apply (no_grant_no_turn "1700"
           {| conciseToggle := None; webToggle := None; localStorage := ∅ |}
           [Click; MediaDenied "Permission denied"; Click] _ eq_refl eq_refl).
Defined.

(** X12: a refused device request is undone but for its toast: a gesture
    made with the flag clear, then the refusal, leave the page as it was
    with the toast "Mic error: " and the host's message added. *)
Theorem denied_request_leaves_a_toast (message : string) (s : state) :
  isRecording s = false ->
  run [Click; MediaDenied message] s
  = Some (with_ui (showToast ("Mic error: " +:+ message)) s).
Proof.
  intros Hflag. cbn [run step]. unfold click. rewrite Hflag.
  destruct s. reflexivity.
Qed.

Lemma denied_request_leaves_a_toast_witness :
  toasts (ui (default (init EmptyString {| conciseToggle := None;
                                           webToggle := None;
                                           localStorage := ∅ |})
                (run [Click; MediaDenied "Permission denied"]
                   (init "1700" {| conciseToggle := None; webToggle := None;
                                   localStorage := ∅ |}))))
  = ["Mic error: Permission denied"].
Proof.
  rewrite (denied_request_leaves_a_toast "Permission denied"
             (init "1700" {| conciseToggle := None; webToggle := None;
                             localStorage := ∅ |}) eq_refl).
  reflexivity.
Defined.

Lemma build_form_flags (now : N) (b : blob) (c : controls) :
  assoc "concise" (build_form now b c) = Some (FText (flag (conciseToggle c)))
  /\ assoc "web_search" (build_form now b c)
     = Some (FText (flag (webToggle c))).
Proof.
  unfold build_form, append_key.
  repeat match goal with
         | |- context [if nonempty ?v then _ else _] => destruct (nonempty v)
         end; split; reflexivity.
Qed.

Lemma flag_is_flag_field (toggle : option bool) :
  flag_field (Some (FText (flag toggle))).
Proof. destruct toggle as [[|]|]; [right | left | left]; reflexivity. Qed.

Lemma onstop_well_formed (now : N) (s : state) :
  Forall (well_formed_request (sessionId s)) (inflight s) ->
  Forall (well_formed_request (sessionId s)) (inflight (onstop now s)).
Proof.
  intros H. unfold onstop. cbn [inflight with_inflight with_ui page sessionId].
  apply Forall_app. split; [exact H|].
  apply Forall_cons. split; [|apply Forall_nil_2].
  destruct (build_form_flags now (new_Blob (chunks s)) (page s)) as [Hc Hw].
  unfold well_formed_request; cbn [url body].
  split; [reflexivity|]. split.
  - eexists _, _. apply build_form_file.
  - rewrite Hc, Hw. split; apply flag_is_flag_field.
Qed.

(** X13: every request is addressed to the page's own session and is
    well formed: in every state reached from page load the session id is
    the one the page was loaded with, and each request in flight goes to
    [/agent/chat/<that id>] with a [file] field holding a recording and
    [concise] and [web_search] fields that are "0" or "1". *)
Theorem requests_addressed_to_session (id : string) (c : controls)
  (es : list event) (s : state) :
  run es (init id c) = Some s ->
  sessionId s = id /\ Forall (well_formed_request id) (inflight s).
Proof.
  assert (H : forall es s0 s,
            (sessionId s0 = id /\ Forall (well_formed_request id) (inflight s0)) ->
            run es s0 = Some s ->
            sessionId s = id /\ Forall (well_formed_request id) (inflight s)).
  { clear. intros es. induction es as [|e es IH]; intros s0 s Hs Hrun;
      simpl in Hrun.
    - now injection Hrun as <-.
    - destruct (step e s0) as [s1|] eqn:Hstep; [|discriminate].
      apply (IH s1 s); [|exact Hrun]. destruct Hs as [Hid Hall].
      destruct e as [| |message|r data|r now|i out started| |c|r];
        simpl in Hstep.
      + injection Hstep as <-. unfold click, stopRecording, startRecording.
        destruct (isRecording s0); [destruct (mediaRecorder s0)|]; auto.
      + destruct (acquiring s0); [discriminate|]. injection Hstep as <-. auto.
      + destruct (acquiring s0); [discriminate|]. injection Hstep as <-. auto.
      + assert (Hs' : s1 = ondataavailable data s0).
        { destruct (recorders s0 !! r) as [[| |]|]; congruence. }
        subst s1. unfold ondataavailable.
        destruct data as [b|]; [destruct (0 <? length b)%nat|]; auto.
      + destruct (recorders s0 !! r) as [[| |]|]; try discriminate.
        injection Hstep as <-. split; [exact Hid|].
        pose proof (onstop_well_formed now
                      (with_recorders (<[r := Inactive]> (recorders s0)) s0))
          as Hw.
        cbn [sessionId with_recorders] in Hw. rewrite Hid in Hw.
        apply Hw. exact Hall.
      + destruct (inflight s0 !! i); [|discriminate]. injection Hstep as <-.
        destruct (onstop_settled_fields out started
                    (with_inflight (delete i (inflight s0)) s0))
          as (_ & _ & _ & _ & Hin & _).
        rewrite Hin. cbn [inflight with_inflight]. split.
        * unfold onstop_settled, show_reply.
          destruct (exchange out) as [err|js]; [exact Hid|].
          destruct js;
            repeat match goal with
                   | |- context [if converts ?v then _ else _] =>
                       destruct (converts v)
                   end; exact Hid.
        * now apply Forall_delete.
      + destruct (playing (aiAudio s0)); [|discriminate].
        injection Hstep as <-. unfold audio_ended, startRecording.
        destruct (onended (aiAudio s0)); auto.
      + injection Hstep as <-. auto.
      + destruct (recorders s0 !! r) as [[| |]|]; try discriminate.
        injection Hstep as <-. auto. }
  intros Hrun. apply (H es (init id c) s); [|exact Hrun].
  split; [reflexivity | apply Forall_nil_2].
Qed.

Lemma requests_addressed_to_session_witness :
  exists s,
    run [Click; MediaGranted; Click; RecorderStopped 0 1700]
      (init "1700" {| conciseToggle := None; webToggle := None;
                      localStorage := ∅ |}) = Some s
    /\ length (inflight s) = 1
    /\ Forall (well_formed_request "1700") (inflight s).
Proof.
  eexists. split; [reflexivity|]. split; [reflexivity|].
  apply (requests_addressed_to_session "1700"
           {| conciseToggle := None; webToggle := None; localStorage := ∅ |}
           [Click; MediaGranted; Click; RecorderStopped 0 1700] _ eq_refl).
Defined.

Lemma onstop_settled_chat (out : fetch_outcome) (started : bool)
  (s : state) :
  toasts (ui (onstop_settled out started s)) = toasts (ui s)
  /\ exists text,
       chatWindow (ui (onstop_settled out started s))
       = chatWindow (ui s)
         ++ (if reply_then_apology out
             then [(text, SideLeft); (apology, SideLeft)]
             else [(text, SideLeft)]).
Proof.
  unfold onstop_settled, show_reply, reply_then_apology, exchange.
  destruct out as [message|status statusText [js|]];
    [split; [|eexists]; reflexivity | | split; [|eexists]; reflexivity].
  destruct (ok status); simpl.
  - destruct js; simpl;
      repeat match goal with
             | |- context [if converts ?v then _ else _] =>
                 destruct (converts v); simpl
             end; (split; [|eexists]; simpl; rewrite <- ?app_assoc; reflexivity).
  - destruct js; simpl;
      repeat match goal with
             | |- context [if converts ?v then _ else _] =>
                 destruct (converts v); simpl
             end; (split; [|eexists]; reflexivity).
Qed.

(** X14: every settled exchange, failed or not, shows no toast and adds
    bubbles on the assistant's side only, and nothing else, to the chat: one
    bubble, or two, the reply and then the apology, exactly when a success
    response has a reply text that converts and an audio source that does
    not. *)
Theorem settled_exchange_bubbles (out : fetch_outcome) (started : bool)
  (s : state) :
  toasts (ui (onstop_settled out started s)) = toasts (ui s)
  /\ exists text,
       chatWindow (ui (onstop_settled out started s))
       = chatWindow (ui s)
         ++ (if reply_then_apology out
             then [(text, SideLeft);
                   ("I'm having trouble connecting right now. Please try again.",
                    SideLeft)]
             else [(text, SideLeft)]).
Proof. apply onstop_settled_chat. Qed.

Lemma bubbles_addMessage (sd sd' : side) (text : string) (s : state) :
  bubbles sd (with_ui (addMessage text sd') s)
  = bubbles sd s
    + match sd', sd with
      | SideLeft, SideLeft => 1
      | SideRight, SideRight => 1
      | _, _ => 0
      end.
Proof.
  unfold bubbles. cbn [ui with_ui addMessage chatWindow].
  rewrite List.filter_app, length_app. simpl.
  destruct sd', sd; simpl; lia.
Qed.

Lemma onstop_settled_bubbles (out : fetch_outcome) (started : bool)
  (s : state) :
  S (bubbles SideLeft s) <= bubbles SideLeft (onstop_settled out started s)
  /\ bubbles SideLeft (onstop_settled out started s) <= 2 + bubbles SideLeft s
  /\ bubbles SideRight (onstop_settled out started s) = bubbles SideRight s.
Proof.
  destruct (onstop_settled_chat out started s) as (_ & text & Hchat).
  unfold bubbles. rewrite Hchat, !List.filter_app, !length_app.
  destruct (reply_then_apology out); simpl; lia.
Qed.

(** The books of the chat. *)
Lemma balanced_step (e : event) (s s' : state) :
  (bubbles SideRight s = length (List.filter is_inactive (recorders s))
   /\ bubbles SideRight s <= bubbles SideLeft s + length (inflight s)
   /\ bubbles SideLeft s + 2 * length (inflight s) <= 2 * bubbles SideRight s) ->
  step e s = Some s' ->
  bubbles SideRight s' = length (List.filter is_inactive (recorders s'))
  /\ bubbles SideRight s' <= bubbles SideLeft s' + length (inflight s')
  /\ bubbles SideLeft s' + 2 * length (inflight s') <= 2 * bubbles SideRight s'.
Proof.
  intros (Hr & Hl & Hu) Hstep.
  destruct e as [| |message|r data|r now|i out started| |c|r];
    simpl in Hstep.
  - injection Hstep as <-. unfold click.
    destruct (isRecording s) eqn:Ef; [|repeat split; assumption].
    unfold stopRecording. rewrite Ef.
    destruct (mediaRecorder s) as [r|]; [|repeat split; assumption].
    unfold recorder_stop.
    destruct (recorders s !! r) as [[| |]|] eqn:Hrec;
      try (repeat split; assumption).
    pose proof (count_insert is_inactive _ _ _ StopQueued Hrec) as Hc.
    simpl in Hc. unfold bubbles in *. cbn. repeat split; lia.
  - destruct (acquiring s); [discriminate|]. injection Hstep as <-.
    unfold bubbles in *. cbn.
    rewrite List.filter_app, length_app. simpl. repeat split; lia.
  - destruct (acquiring s); [discriminate|]. injection Hstep as <-.
    unfold bubbles in *. cbn. repeat split; assumption.
  - assert (Hs' : s' = ondataavailable data s).
    { destruct (recorders s !! r) as [[| |]|]; congruence. }
    subst s'. unfold ondataavailable.
    destruct data as [b|]; [destruct (0 <? length b)%nat|];
      repeat split; assumption.
  - destruct (recorders s !! r) as [[| |]|] eqn:Hrec; try discriminate.
    injection Hstep as <-.
    pose proof (count_insert is_inactive _ _ _ Inactive Hrec) as Hc.
    simpl in Hc. unfold onstop.
    unfold bubbles in *. cbn.
    rewrite !List.filter_app, !length_app. simpl. repeat split; lia.
  - destruct (inflight s !! i) as [req|] eqn:Hi; [|discriminate].
    injection Hstep as <-.
    pose proof (length_delete (inflight s) i (mk_is_Some _ _ Hi)) as Hdel.
    pose proof (lookup_lt_Some _ _ _ Hi) as Hlt.
    destruct (onstop_settled_bubbles out started
                (with_inflight (delete i (inflight s)) s))
      as (Hbl1 & Hbl2 & Hbr).
    destruct (onstop_settled_fields out started
                (with_inflight (delete i (inflight s)) s))
      as (Hrs & _ & _ & _ & Hin & _).
    rewrite Hbr, Hrs, Hin.
    unfold bubbles in *. cbn in *. repeat split; lia.
  - destruct (playing (aiAudio s)); [|discriminate].
    injection Hstep as <-. unfold audio_ended, startRecording.
    destruct (onended (aiAudio s)); repeat split; assumption.
  - injection Hstep as <-. repeat split; assumption.
  - destruct (recorders s !! r) as [[| |]|] eqn:Hrec; try discriminate.
    injection Hstep as <-.
    pose proof (count_insert is_inactive _ _ _ StopQueued Hrec) as Hc.
    simpl in Hc. unfold bubbles in *. cbn. repeat split; lia.
Qed.

(** X15: the chat keeps books on the turns.  In every state reached from
    page load there is one "(captured voice)" bubble for each recorder
    whose [stop] event has run, and each of them either still has its
    request in flight or is answered on the assistant's side, by one bubble
    or by two. *)
Theorem chat_accounts_for_turns (id : string) (c : controls)
  (es : list event) (s : state) :
  run es (init id c) = Some s ->
  bubbles SideRight s = length (List.filter is_inactive (recorders s))
  /\ bubbles SideRight s <= bubbles SideLeft s + length (inflight s)
  /\ bubbles SideLeft s + 2 * length (inflight s) <= 2 * bubbles SideRight s.
Proof.
  assert (H : forall es s0 s,
            (bubbles SideRight s0
             = length (List.filter is_inactive (recorders s0))
             /\ bubbles SideRight s0
                <= bubbles SideLeft s0 + length (inflight s0)
             /\ bubbles SideLeft s0 + 2 * length (inflight s0)
                <= 2 * bubbles SideRight s0) ->
            run es s0 = Some s ->
            bubbles SideRight s = length (List.filter is_inactive (recorders s))
            /\ bubbles SideRight s <= bubbles SideLeft s + length (inflight s)
            /\ bubbles SideLeft s + 2 * length (inflight s)
               <= 2 * bubbles SideRight s).
  { clear. intros es. induction es as [|e es IH]; intros s0 s Hs Hrun;
      simpl in Hrun.
    - now injection Hrun as <-.
    - destruct (step e s0) as [s1|] eqn:Hstep; [|discriminate].
      apply (IH s1 s); [|exact Hrun].
      eapply balanced_step; eassumption. }
  intros Hrun. apply (H es (init id c) s); [|exact Hrun].
  cbn. lia.
Qed.

Lemma chat_accounts_for_turns_witness :
  exists s,
    run [Click; MediaGranted; Click; DataAvailable 0 (Some [x01; x02]);
         RecorderStopped 0 1700;
         FetchSettled 0
           (Responded 200 "OK"
              (Some (JObj [("llm_text", JStr "hi there");
                           ("audio_url", JObj [("toString", JNum "1")])])))
           true]
      (init "1700" {| conciseToggle := None; webToggle := None;
                      localStorage := ∅ |}) = Some s
    /\ bubbles SideLeft s = 2
    /\ bubbles SideRight s = 1
    /\ bubbles SideLeft s + 2 * length (inflight s) <= 2 * bubbles SideRight s.
Proof.
  eexists. split; [reflexivity|]. split; [reflexivity|].
  split; [reflexivity|].
  apply (chat_accounts_for_turns "1700"
           {| conciseToggle := None; webToggle := None; localStorage := ∅ |}
           [Click; MediaGranted; Click; DataAvailable 0 (Some [x01; x02]);
            RecorderStopped 0 1700;
            FetchSettled 0
              (Responded 200 "OK"
                 (Some (JObj [("llm_text", JStr "hi there");
                              ("audio_url", JObj [("toString", JNum "1")])])))
              true] _ eq_refl).
Defined.

End TurnLoopMore.

(** ** More on the exchange *)

Section ExchangeMore.

#[local] Arguments truthy : simpl never.

(** X17: a success status with a body that is not JSON, or is [null],
    divides the scripts.  script.js takes its failure path; part_000 treats
    the body as an empty object, shows "(no response)", plays the fallback
    asset, reads "Speaking…" and installs the auto-listen handler. *)
Theorem unparsable_success_body (status : N) (text : string)
  (parsed : option json) (started : bool) (s : Script.state)
  (p : Part000.state) :
  ok status = true ->
  parsed = None \/ parsed = Some JNull ->
  Script.onstop_settled (Responded status text parsed) started s
  = Script.on_failure started s
  /\ Part000.sendToAgent_settled (Responded status text parsed) started p
     = Part000.on_success (JObj []) started p
  /\ last (Part000.chatWindow
             (Part000.ui (Part000.on_success (JObj []) started p)))
     = Some (Part000.Assistant, "(no response)")
  /\ Part000.aiAudio (Part000.on_success (JObj []) started p)
     = {| src := "/static/fallback.mp3"; playing := started;
          onended := true |}
  /\ Part000.statusText (Part000.ui (Part000.on_success (JObj []) started p))
     = "Speaking…".
Proof.
  intros Hok Hbody. split; [|split].
  - apply script_failed_settles. destruct Hbody as [-> | ->]; reflexivity.
  - unfold Part000.sendToAgent_settled, Part000.fetchJson. rewrite Hok.
    destruct Hbody as [-> | ->]; reflexivity.
  - repeat split. simpl. apply last_snoc.
Qed.

Lemma unparsable_success_body_witness :
  Part000.statusText
    (Part000.ui
       (Part000.sendToAgent_settled (Responded 200 "OK" None) true
          (Part000.init "1700")))
  = "Speaking…"
  /\ Script.onstop_settled (Responded 200 "OK" None) true
       (Script.init "1700" {| Script.conciseToggle := None;
                              Script.webToggle := None;
                              Script.localStorage := ∅ |})
     = Script.on_failure true
         (Script.init "1700" {| Script.conciseToggle := None;
                                Script.webToggle := None;
                                Script.localStorage := ∅ |}).
Proof.
  destruct (unparsable_success_body 200%N "OK" None true
              (Script.init "1700" {| Script.conciseToggle := None;
                                     Script.webToggle := None;
                                     Script.localStorage := ∅ |})
              (Part000.init "1700") eq_refl (or_introl eq_refl))
    as (Hs & Hp & _ & _ & Hst).
  split; [now rewrite Hp | exact Hs].
Defined.

(** X18: part_000's [fetchJson] throws exactly when the request is
    rejected or the status is outside 200 to 299, whatever the body; and
    what it returns is never [null] or any other falsy value, so
    [sendToAgent] can read its fields. *)
Theorem fetchJson_outcome (out : fetch_outcome) :
  ((exists message, Part000.fetchJson out = inl message) <-> throws out = true)
  /\ (forall data, Part000.fetchJson out = inr data ->
                   truthy (Some data) = true).
Proof.
  unfold Part000.fetchJson, throws.
  destruct out as [m | status text parsed].
  - split; [split; eauto | discriminate].
  - destruct (ok status); simpl negb; cbv iota.
    + split.
      * split; [intros [m Hm]; discriminate | discriminate].
      * intros data [= <-]. unfold or_default.
        destruct (truthy (Some (default JNull parsed))) eqn:E;
          [exact E | reflexivity].
    + split; [split; eauto | discriminate].
Qed.

End ExchangeMore.

(** ** More on the turn-detection socket *)

Section TurnSignalMore.

Import TurnSocket.

Lemma step_monotone (e : event) (p : page) :
  loop (step e p) = loop p
  /\ turnLog p `prefix_of` turnLog (step e p)
  /\ length (turnLog (step e p)) <= S (length (turnLog p))
  /\ (turnBox_hidden p = false -> turnBox_hidden (step e p) = false)
  /\ (turnLog (step e p) = turnLog p
      \/ turnBox_hidden (step e p) = false).
Proof.
  destruct e as [|parsed| |]; simpl;
    try (repeat split; auto; lia).
  unfold onmessage. destruct parsed as [payload|];
    [|repeat split; auto; lia].
  destruct (is_boundary payload); simpl;
    [|repeat split; auto; lia].
  destruct (converts _); [|repeat split; auto; lia].
  repeat split; auto.
  - now apply prefix_app_r.
  - rewrite length_app. simpl. lia.
Qed.

(** X19: whatever the socket delivers, in any order and number, the turn
    loop's state is untouched, rows of the turn log are only ever added (at
    most one per event, none removed or changed), and the panel, once
    revealed, stays revealed; on a page that starts with an empty log a row
    is never logged while the panel is hidden. *)
Theorem socket_only_appends (es : list event) (p : page) :
  loop (run es p) = loop p
  /\ turnLog p `prefix_of` turnLog (run es p)
  /\ length (turnLog (run es p)) <= length (turnLog p) + length es
  /\ (turnBox_hidden p = false -> turnBox_hidden (run es p) = false)
  /\ (turnLog p = [] -> turnLog (run es p) <> [] ->
      turnBox_hidden (run es p) = false).
Proof.
  assert (H : loop (run es p) = loop p
              /\ turnLog p `prefix_of` turnLog (run es p)
              /\ length (turnLog (run es p)) <= length (turnLog p) + length es
              /\ (turnBox_hidden p = false ->
                  turnBox_hidden (run es p) = false)
              /\ (turnLog (run es p) = turnLog p
                  \/ turnBox_hidden (run es p) = false)).
  { revert p. induction es as [|e es IH]; intros p.
    - simpl. repeat split; auto. lia.
    - destruct (step_monotone e p) as (Hl & Hp & Hn & Hh & Hd).
      destruct (IH (step e p)) as (Hl' & Hp' & Hn' & Hh' & Hd').
      change (run (e :: es) p) with (run es (step e p)).
      split; [congruence|]. split; [etrans; eassumption|].
      split; [simpl; lia|]. split; [auto|].
      destruct Hd' as [Hd' | Hd']; [|now right].
      rewrite Hd'. destruct Hd as [Hd | Hd]; [now left|].
      right. now apply Hh'. }
  destruct H as (Hl & Hp & Hn & Hh & Hd).
  repeat split; auto.
  intros Hempty Hne. destruct Hd as [Hd | Hd]; [|exact Hd].
  congruence.
Qed.

End TurnSignalMore.

(** ** The key dialog *)

Section KeyDialog.

Import Script Config.

Lemma nonempty_or_empty (v : string) :
  (if nonempty v then v else EmptyString) = v.
Proof. now destruct v. Qed.

Lemma stored_key_lookup (c : controls) (k v : string) :
  localStorage c !! k = Some v -> stored_key c k = v.
Proof. intros H. unfold stored_key. rewrite H. apply nonempty_or_empty. Qed.

(** What [save] leaves in the store under each key. *)
Lemma saved_lookup (f : form) (s : state) (i : input) :
  localStorage (page (snd (save f s))) !! key_of i
  = Some (Text.trim (typed i f)).
Proof.
  unfold save. cbn [snd page with_ui with_page setItem localStorage].
  destruct i; cbn [key_of typed]; now simplify_map_eq.
Qed.

(** A key field is in the request exactly when a non-empty text is stored
    under its key. *)
Lemma credential_field_configured (now : N) (b : blob) (c : controls)
  (i : input) (v : string) :
  In (field_of i, FText v) (build_form now b c) <-> configured c (key_of i) v.
Proof.
  rewrite <- stored_key_configured.
  unfold build_form. rewrite !in_append_key. simpl.
  destruct i; cbn [field_of key_of];
    (split;
     [ intros H; repeat destruct H as [H|H]; try discriminate H;
       try contradiction;
       destruct H as [Hne [= Hv]]; subst v; auto
     | intros [Hne <-]; auto 10 ]).
Qed.

(** X20: what is typed into the dialog reaches the next request trimmed:
    after a save the request carries a service's key field exactly when the
    trimmed input is not empty, and the field then holds the trimmed
    input. *)
Theorem saved_keys_reach_request (f : form) (s : state) (now : N)
  (b : blob) (i : input) (v : string) :
  In (field_of i, FText v) (build_form now b (page (snd (save f s))))
  <-> v = Text.trim (typed i f) /\ nonempty v = true.
Proof.
  rewrite credential_field_configured. unfold configured.
  rewrite saved_lookup. split.
  - intros [[= <-] Hne]. auto.
  - intros [-> Hne]. auto.
Qed.

Lemma reopen_shows_saved_keys_aux (f : form) (s : state) (i : input) :
  typed i (show (page (snd (save f s))) (fst (save f s)))
  = Text.trim (typed i f)
  /\ hidden (fst (save f s)) = true
  /\ hidden (show (page (snd (save f s))) (fst (save f s))) = false.
Proof.
  split; [|split; reflexivity].
  unfold show, fill.
  destruct i; cbn [typed set_classes assemblyaiKey geminiKey murfKey tavilyKey];
    apply stored_key_lookup.
  - apply (saved_lookup f s Assemblyai).
  - apply (saved_lookup f s Gemini).
  - apply (saved_lookup f s Murf).
  - apply (saved_lookup f s Tavily).
Qed.

(** X21: a save closes the dialog, and reopening it shows each input
    trimmed. *)
Theorem reopen_shows_saved_keys (f : form) (s : state) (i : input) :
  typed i (show (page (snd (save f s))) (fst (save f s)))
  = Text.trim (typed i f)
  /\ hidden (fst (save f s)) = true
  /\ hidden (show (page (snd (save f s))) (fst (save f s))) = false.
Proof. apply reopen_shows_saved_keys_aux. Qed.

(** X22: only the save button writes: whatever is typed, opened, closed
    or cancelled, in any order, the page outside the dialog, stored keys
    included, stays as it was. *)
Theorem editing_never_stores (es : list event) (f : form) (s : state) :
  existsb is_save es = false ->
  snd (run es (f, s)) = s.
Proof.
  revert f. induction es as [|e es IH]; intros f Hno; [reflexivity|].
  simpl in Hno. apply orb_false_iff in Hno as [He Hes].
  change (run (e :: es) (f, s)) with (run es (step e (f, s))).
  destruct e; try discriminate He; simpl; now apply IH.
Qed.

Lemma editing_never_stores_witness :
  snd (run [OpenConfig; Typed Murf "abc"; CancelConfig]
         ({| hidden := true; flex := false;
             assemblyaiKey := EmptyString; geminiKey := EmptyString;
             murfKey := EmptyString; tavilyKey := EmptyString |},
          init "1700" {| conciseToggle := None; webToggle := None;
                         localStorage := ∅ |}))
  = init "1700" {| conciseToggle := None; webToggle := None;
                   localStorage := ∅ |}.
Proof.
  apply (editing_never_stores [OpenConfig; Typed Murf "abc"; CancelConfig]).
  reflexivity.
Defined.

(** X23: a save changes nothing but the four keys and the toast: the
    toggles, every other stored entry, the chat and the whole state of
    capture, exchange and playback are as before, so saving during a turn
    does not disturb it. *)
Theorem save_touches_only_keys (f : form) (s : state) :
  let s' := snd (save f s) in
  conciseToggle (page s') = conciseToggle (page s)
  /\ webToggle (page s') = webToggle (page s)
  /\ (forall k, (forall i, k <> key_of i) ->
                localStorage (page s') !! k = localStorage (page s) !! k)
  /\ toasts (ui s') = toasts (ui s) ++ ["Saved API keys"]
  /\ chatWindow (ui s') = chatWindow (ui s)
  /\ face s' = face s
  /\ (sessionId s', mediaRecorder s', recorders s', chunks s', acquiring s',
      inflight s', aiAudio s')
     = (sessionId s, mediaRecorder s, recorders s, chunks s, acquiring s,
        inflight s, aiAudio s).
Proof.
  cbn zeta. unfold save.
  cbn [snd page with_ui with_page setItem localStorage conciseToggle
       webToggle].
  repeat split.
  intros k Hk.
  pose proof (Hk Assemblyai). pose proof (Hk Gemini).
  pose proof (Hk Murf). pose proof (Hk Tavily).
  cbn [key_of] in *. now simplify_map_eq.
Qed.

Lemma trim_blank (v : string) :
  all_chars Text.ws1 v = true -> Text.trim v = EmptyString.
Proof.
  intros H. unfold Text.trim.
  assert (Hs : Text.strip false v = EmptyString).
  { induction v as [|a v IH]; [reflexivity|].
    simpl in H. apply andb_true_iff in H as [Ha Hv].
    simpl. rewrite Ha. now apply IH. }
  now rewrite Hs.
Qed.

(** X24: an input left empty or holding only spaces, tabs or line breaks
    is stored as the empty text and its key field is never sent. *)
Theorem blank_key_is_not_sent (f : form) (s : state) (now : N) (b : blob)
  (i : input) (v : string) :
  all_chars Text.ws1 (typed i f) = true ->
  localStorage (page (snd (save f s))) !! key_of i = Some EmptyString
  /\ ~ In (field_of i, FText v) (build_form now b (page (snd (save f s)))).
Proof.
  intros Hblank. split.
  - rewrite saved_lookup. now rewrite trim_blank.
  - rewrite credential_field_configured. unfold configured.
    rewrite saved_lookup, trim_blank by exact Hblank.
    intros [[= <-] Hne]. discriminate.
Qed.

Lemma blank_key_is_not_sent_witness :
  localStorage
    (page (snd (save {| hidden := false; flex := true;
                        assemblyaiKey := EmptyString;
                        geminiKey := EmptyString;
                        murfKey := "   ";
                        tavilyKey := EmptyString |}
                  (init "1700" {| conciseToggle := None; webToggle := None;
                                  localStorage := ∅ |}))))
    !! "key_murf" = Some EmptyString.
Proof.
  apply (blank_key_is_not_sent
           {| hidden := false; flex := true;
              assemblyaiKey := EmptyString; geminiKey := EmptyString;
              murfKey := "   "; tavilyKey := EmptyString |}
           (init "1700" {| conciseToggle := None; webToggle := None;
                           localStorage := ∅ |})
           1700%N [] Murf EmptyString).
  reflexivity.
Defined.

Lemma append_cons (a : ascii) (s t : string) :
  String a s +:+ t = String a (s +:+ t).
Proof. reflexivity. Qed.

Lemma append_empty_r (s : string) : s +:+ EmptyString = s.
Proof.
  induction s as [|a s IH]; [reflexivity|]. now rewrite append_cons, IH.
Qed.

Lemma append_assoc (a b c : string) : (a +:+ b) +:+ c = a +:+ (b +:+ c).
Proof.
  induction a as [|x a IH]; [reflexivity|]. now rewrite !append_cons, IH.
Qed.

Lemma rev_app_spec (s acc : string) :
  String.rev_app s acc = String.rev s +:+ acc.
Proof.
  unfold String.rev. revert acc.
  induction s as [|a s IH]; intros acc; [reflexivity|].
  cbn [String.rev_app].
  rewrite (IH (String a acc)), (IH (String a EmptyString)).
  now rewrite append_assoc.
Qed.

Lemma rev_cons (a : ascii) (s : string) :
  String.rev (String a s) = String.rev s +:+ String a EmptyString.
Proof. unfold String.rev at 1. cbn [String.rev_app]. apply rev_app_spec. Qed.

Lemma rev_append (a b : string) :
  String.rev (a +:+ b) = String.rev b +:+ String.rev a.
Proof.
  induction a as [|x a IH].
  - change (EmptyString +:+ b) with b. now rewrite append_empty_r.
  - rewrite append_cons, !rev_cons, IH. now rewrite append_assoc.
Qed.

Lemma rev_involutive (s : string) : String.rev (String.rev s) = s.
Proof.
  induction s as [|a s IH]; [reflexivity|].
  rewrite rev_cons, rev_append, IH. reflexivity.
Qed.

(** What [strip] returns does not start with white space and is the end of
    the text it was given. *)
Lemma strip_spec (backwards : bool) (n : nat) (s : string) :
  String.length s <= n ->
  starts_ws backwards (Text.strip backwards s) = false
  /\ exists p, s = p +:+ Text.strip backwards s.
Proof.
  revert s. induction n as [|n IH]; intros s Hlen.
  - destruct s; [|simpl in Hlen; lia].
    split; [reflexivity | now exists EmptyString].
  - destruct s as [|a s1]; [split; [reflexivity | now exists EmptyString]|].
    simpl in Hlen. cbn [Text.strip].
    destruct (Text.ws1 a) eqn:E1.
    { destruct (IH s1 ltac:(lia)) as [Hs [p Hp]].
      split; [exact Hs|]. exists (String a p).
      now rewrite append_cons, <- Hp. }
    destruct s1 as [|b s2].
    { split; [simpl; now rewrite E1 | now exists EmptyString]. }
    simpl in Hlen.
    destruct (if backwards then Text.ws2 b a else Text.ws2 a b) eqn:E2.
    { destruct (IH s2 ltac:(lia)) as [Hs [p Hp]].
      split; [exact Hs|]. exists (String a (String b p)).
      now rewrite !append_cons, <- Hp. }
    destruct s2 as [|c s3].
    { split; [simpl; now rewrite E1, E2 | now exists EmptyString]. }
    simpl in Hlen.
    destruct (if backwards then Text.ws3 c b a else Text.ws3 a b c) eqn:E3.
    { destruct (IH s3 ltac:(lia)) as [Hs [p Hp]].
      split; [exact Hs|]. exists (String a (String b (String c p))).
      now rewrite !append_cons, <- Hp. }
    split; [simpl; now rewrite E1, E2, E3 | now exists EmptyString].
Qed.

Lemma strip_fixed (backwards : bool) (s : string) :
  starts_ws backwards s = false -> Text.strip backwards s = s.
Proof.
  destruct s as [|a [|b [|c s3]]]; simpl; try reflexivity.
  - intros H. apply orb_false_iff in H as [-> _]. reflexivity.
  - intros H. apply orb_false_iff in H as [-> H].
    apply orb_false_iff in H as [-> _]. reflexivity.
  - intros H. apply orb_false_iff in H as [-> H].
    apply orb_false_iff in H as [-> ->]. reflexivity.
Qed.

(** A text that starts with white space still does when more follows. *)
Lemma starts_ws_append (s q : string) :
  starts_ws false s = true -> starts_ws false (s +:+ q) = true.
Proof.
  destruct s as [|a [|b [|c s3]]]; rewrite ?append_cons;
    cbn [starts_ws]; try discriminate.
  - intros H. rewrite orb_false_r in H. now rewrite H.
  - intros H. rewrite orb_false_r in H.
    destruct (Text.ws1 a); [reflexivity|]. simpl in *. now rewrite H.
  - intros H. exact H.
Qed.

Lemma trim_idempotent (s : string) : Text.trim (Text.trim s) = Text.trim s.
Proof.
  unfold Text.trim. set (y := Text.strip false s).
  destruct (strip_spec true _ (String.rev y) (Nat.le_refl _)) as [Hx [p Hp]].
  assert (Hy : starts_ws false y = false)
    by apply (strip_spec false _ s (Nat.le_refl _)).
  set (z := Text.strip true (String.rev y)) in *.
  assert (Hfix : Text.strip false (String.rev z) = String.rev z).
  { apply strip_fixed.
    destruct (starts_ws false (String.rev z)) eqn:E; [|reflexivity].
    apply (starts_ws_append _ (String.rev p)) in E.
    rewrite <- rev_append, <- Hp, rev_involutive in E. congruence. }
  rewrite Hfix, rev_involutive. now rewrite (strip_fixed true z Hx).
Qed.

(** X25: opening the dialog and saving what it shows changes no stored
    key: the keys a save leaves are what a second save, made from the
    reopened dialog without typing, stores again. *)
Theorem resave_is_stable (f : form) (s : state) :
  page (snd (save (show (page (snd (save f s))) (fst (save f s)))
               (snd (save f s))))
  = page (snd (save f s)).
Proof.
  set (s1 := snd (save f s)). set (f2 := show (page s1) (fst (save f s))).
  assert (Hshown : forall i, Text.trim (typed i f2)
                             = Text.trim (typed i f)).
  { intros i. unfold f2, s1.
    rewrite (proj1 (reopen_shows_saved_keys_aux f s i)).
    apply trim_idempotent. }
  assert (Hstored : forall i, localStorage (page s1) !! key_of i
                              = Some (Text.trim (typed i f2))).
  { intros i. rewrite Hshown. apply saved_lookup. }
  unfold save at 1.
  cbn [snd page with_ui with_page].
  pose proof (Hstored Assemblyai) as Ha. pose proof (Hstored Gemini) as Hg.
  pose proof (Hstored Murf) as Hm. pose proof (Hstored Tavily) as Ht.
  cbn [key_of typed] in Ha, Hg, Hm, Ht.
  unfold setItem. cbn [conciseToggle webToggle localStorage].
  rewrite (insert_id _ _ _ Ha), (insert_id _ _ _ Hg),
    (insert_id _ _ _ Hm), (insert_id _ _ _ Ht).
  now destruct (page s1).
Qed.

End KeyDialog.

(** ** The avatar *)

Section AvatarImage.

Import Avatar.

Lemma swap_known (now : N) (m : mode) :
  swap now m = SRC m +:+ "?t=" +:+ pretty now.
Proof.
  unfold swap, bust.
  assert (H : Text.includes "?" (SRC m) = false)
    by (destruct m; vm_compute; reflexivity).
  rewrite H. reflexivity.
Qed.

Lemma run_snoc (es : list (event * N)) (e : event) (now : N)
  (img : option string) :
  run (es ++ [(e, now)]) img = step e now (run es img).
Proof. unfold run. now rewrite fold_left_app. Qed.

Lemma run_installed (es : list (event * N)) (img : option string) :
  is_Some img -> is_Some (run es img).
Proof.
  revert img. induction es as [|[e t] es IH]; intros img Himg; [exact Himg|].
  change (run ((e, t) :: es) img) with (run es (step e t img)).
  apply IH. destruct Himg as [current ->]. simpl.
  destruct (signal e); eauto.
Qed.

(** X27: the image only ever shows one of the three pictures of [SRC],
    with "?t=" and a clock reading appended, and it shows the one asked for
    by the last event that asked for one: after an event that signals a
    mode the source is that mode's picture stamped with that event's clock
    reading, and an event that signals none (a pause at the end of the
    audio, a change of another attribute) leaves the image as it is.  On a
    page without the image nothing is ever set. *)
Theorem avatar_shows_last_signal (es : list (event * N)) (now0 : N)
  (img0 : string) :
  (exists (m : mode) (t : N),
      run es (install now0 (Some img0)) = Some (SRC m +:+ "?t=" +:+ pretty t))
  /\ (forall e now m,
        signal e = Some m ->
        run (es ++ [(e, now)]) (install now0 (Some img0))
        = Some (SRC m +:+ "?t=" +:+ pretty now))
  /\ (forall e now,
        signal e = None ->
        run (es ++ [(e, now)]) (install now0 (Some img0))
        = run es (install now0 (Some img0)))
  /\ run es (install now0 None) = None.
Proof.
  split; [|split; [|split]].
  - induction es as [|[e t] es IH] using rev_ind.
    + exists Idle, now0. simpl. now rewrite swap_known.
    + rewrite run_snoc. destruct IH as (m & t0 & ->). simpl.
      destruct (signal e) as [m'|].
      * exists m', t. now rewrite swap_known.
      * now exists m, t0.
  - intros e now m Hsig. rewrite run_snoc.
    destruct (run_installed es (install now0 (Some img0)))
      as [current ->]; [simpl; eauto|].
    simpl. rewrite Hsig. now rewrite swap_known.
  - intros e now Hsig. rewrite run_snoc.
    destruct (run_installed es (install now0 (Some img0)))
      as [current ->]; [simpl; eauto|].
    simpl. now rewrite Hsig.
  - induction es as [|[e t] es IH]; [reflexivity|].
    change (run ((e, t) :: es) (install now0 None))
      with (run es (step e t (install now0 None))).
    exact IH.
Qed.

End AvatarImage.

(** ** More on part_000 *)

Section Part000More.

Import Part000.

Lemma on_success_flag (data : json) (started : bool) (s : state) :
  pressed (ui (on_success data started s)) = pressed (ui s)
  /\ isRecording (on_success data started s) = isRecording s
  /\ sessionId (on_success data started s) = sessionId s
  /\ inflight (on_success data started s) = inflight s.
Proof.
  unfold on_success.
  repeat match goal with
         | |- context [if ?c then _ else _] => destruct c
         end; repeat split.
Qed.

Lemma sendToAgent_settled_flag (out : fetch_outcome) (started : bool)
  (s : state) :
  pressed (ui (sendToAgent_settled out started s)) = pressed (ui s)
  /\ isRecording (sendToAgent_settled out started s) = isRecording s
  /\ sessionId (sendToAgent_settled out started s) = sessionId s
  /\ inflight (sendToAgent_settled out started s) = inflight s.
Proof.
  unfold sendToAgent_settled.
  destruct (fetchJson out) as [message|data];
    [repeat split | apply on_success_flag].
Qed.

Lemma click_flag (s : state) :
  sessionId (click s) = sessionId s
  /\ ((pressed (ui (click s)) = pressed (ui s)
       /\ isRecording (click s) = isRecording s)
      \/ (pressed (ui (click s)) = true /\ isRecording (click s) = true)
      \/ (pressed (ui (click s)) = false /\ isRecording (click s) = false)).
Proof.
  unfold click, stopRecording, startRecording.
  destruct s as [sid mr rs ch rb fl acq infl au vw]. cbn.
  destruct fl; [|auto].
  destruct mr as [r|]; [|auto].
  destruct (rs !! r) as [rec|]; [|auto].
  destruct (active rec); auto.
Qed.

Lemma part000_step_shape (e : event) (s s' : state) :
  step e s = Some s' ->
  sessionId s' = sessionId s
  /\ ((pressed (ui s') = pressed (ui s) /\ isRecording s' = isRecording s)
      \/ (pressed (ui s') = true /\ isRecording s' = true)
      \/ (pressed (ui s') = false /\ isRecording s' = false)).
Proof.
  intros Hstep.
  destruct e as [| | |r|r data|r now|i out started| |r]; simpl in Hstep.
  - injection Hstep as <-. apply click_flag.
  - destruct (acquiring s); [discriminate|]. injection Hstep as <-. auto.
  - destruct (acquiring s); [discriminate|]. injection Hstep as <-. auto.
  - destruct (recorders s !! r) as [rec|]; [|discriminate].
    destruct (start_queued rec); [|discriminate].
    injection Hstep as <-. auto.
  - destruct (recorders s !! r) as [rec|]; [|discriminate].
    destruct (active rec || stop_queued rec); [|discriminate].
    injection Hstep as <-. unfold ondataavailable.
    destruct (0 <? length data)%nat; auto.
  - destruct (recorders s !! r) as [rec|]; [|discriminate].
    destruct (stop_queued rec && negb (start_queued rec)); [|discriminate].
    injection Hstep as <-. auto.
  - destruct (inflight s !! i); [|discriminate]. injection Hstep as <-.
    destruct (sendToAgent_settled_flag out started
                (with_inflight (delete i (inflight s)) s))
      as (Hp & Hf & Hid & _).
    rewrite Hp, Hf, Hid. auto.
  - destruct (playing (aiAudio s)); [|discriminate].
    injection Hstep as <-. unfold audio_ended, startRecording.
    destruct (onended (aiAudio s)); auto.
  - destruct (recorders s !! r) as [rec|]; [|discriminate].
    destruct (active rec); [|discriminate].
    injection Hstep as <-. auto.
Qed.

(** X28: in part_000 too the record button tells the truth about the
    flag: from a state where the button's pressed look agrees with
    [isRecording], it agrees with it in every state the page reaches, and
    the session id never changes. *)
Theorem part000_button_mirrors_flag (es : list event) (s s' : state) :
  pressed (ui s) = isRecording s ->
  run es s = Some s' ->
  pressed (ui s') = isRecording s' /\ sessionId s' = sessionId s.
Proof.
  revert s. induction es as [|e es IH]; intros s Hs Hrun; simpl in Hrun.
  - injection Hrun as <-. auto.
  - destruct (step e s) as [s1|] eqn:Hstep; [|discriminate].
    destruct (part000_step_shape e s s1 Hstep) as [Hid Hshape].
    rewrite <- Hid. apply (IH s1); [|exact Hrun].
    destruct Hshape as [[-> ->] | [[-> ->] | [-> ->]]]; auto.
Qed.

Lemma part000_button_mirrors_flag_witness :
  pressed (ui (default (init EmptyString)
                 (run [Click; MediaGranted; RecorderStarted 0]
                    (init "1700"))))
  = isRecording (default (init EmptyString)
                   (run [Click; MediaGranted; RecorderStarted 0]
                      (init "1700"))).
Proof.
  apply (part000_button_mirrors_flag [Click; MediaGranted; RecorderStarted 0]
           (init "1700") _ eq_refl eq_refl).
Defined.

(** X29: part_000 raises the flag when the recorder's [start] event
    runs, not when the device is granted.  A gesture made in between, with
    the flag still clear, does not stop the capture just started: it
    requests the device again and the recorder goes on recording. *)
Theorem part000_click_before_start_event (s : state) :
  isRecording s = false ->
  acquiring s <> 0 ->
  exists s',
    run [MediaGranted; Click] s = Some s'
    /\ acquiring s' = acquiring s
    /\ isRecording s' = false
    /\ recorders s'
       = recorders s ++ [{| active := true; start_queued := true;
                            stop_queued := false |}].
Proof.
  intros Hflag Hacq. cbn [run step].
  destruct (acquiring s) as [|n] eqn:Ea; [congruence|].
  eexists. split; [reflexivity|].
  unfold click. cbn [startRecording_granted isRecording]. rewrite Hflag.
  cbn. rewrite Ea, Hflag. repeat split.
Qed.

Lemma part000_click_before_start_event_witness :
  exists s',
    run [MediaGranted; Click] (startRecording (init "1700")) = Some s'
    /\ acquiring s' = 1.
Proof.
  destruct (part000_click_before_start_event (startRecording (init "1700"))
              eq_refl)
    as (s' & Hrun & Hacq & _); [cbn; lia|].
  exists s'. split; [exact Hrun | exact Hacq].
Defined.

End Part000More.
